(** * Product catalogue service: route layer and Product entity

    A shallow embedding of [service/routes.py] (the Flask handlers) over a
    model of the collaborators it calls: the [Product] entity of
    [service/models.py], the [Category] enumeration and the error handlers.
    Python values are a small dynamic universe, a JSON object is a finite
    map from keys to values, the database is a finite map from primary keys
    to rows, and a handler is a state-passing computation over the store
    that either returns or raises. *)

From Stdlib Require Import Ascii String ZArith.
From stdpp Require Import base option list strings gmap fin_maps pretty.

Open Scope Z_scope.
Open Scope string_scope.

(** ** Enumerations *)

(** Modelled from the spec: the [Category] enumeration lives in
    [service/models.py], which is not among the files modelled here; the spec
    fixes only that it is a fixed set of named members.  It is therefore an
    interface: a type with decidable equality, the list of its members in
    definition order, and the [name] attribute of a member, distinct
    members carrying distinct names. *)
Class Enumeration (E : Type) := {
  enum_eq_dec :: EqDecision E;
  members : list E;
  name_of : E → string;
  members_all : ∀ c, c ∈ members;
  name_of_inj : ∀ c1 c2, name_of c1 = name_of c2 → c1 = c2
}.

(** [getattr(E, s)] on an enumeration class: the member called [s], if any. *)
Definition getattr_enum `{Enumeration E} (s : string) : option E :=
  List.find (λ c, bool_decide (name_of c = s)) members.

(** ** Strings *)

(** [str.upper()] and [str.lower()] on byte strings: the ASCII letters
    change case, every other byte stays. *)
Definition upper_ascii (c : ascii) : ascii :=
  let n := N_of_ascii c in
  if ((97 <=? n) && (n <=? 122))%N then ascii_of_N (n - 32) else c.

Definition lower_ascii (c : ascii) : ascii :=
  let n := N_of_ascii c in
  if ((65 <=? n) && (n <=? 90))%N then ascii_of_N (n + 32) else c.

Fixpoint upper (s : string) : string :=
  match s with
  | EmptyString => EmptyString
  | String c s' => String (upper_ascii c) (upper s')
  end.

Fixpoint lower (s : string) : string :=
  match s with
  | EmptyString => EmptyString
  | String c s' => String (lower_ascii c) (lower s')
  end.

(** ** Python values *)

(** [decimal.Decimal]: an integer coefficient scaled by a power of ten. *)
Record Decimal := mkDecimal { coefficient : Z; exponent : Z }.

(** The values that travel in a JSON body or sit in an attribute that has
    not been type-checked. A [dict] is a finite map on its string keys. *)
#[warnings="-register-all"]
Inductive value :=
  | VNone
  | VBool (b : bool)
  | VInt (z : Z)
  | VDec (d : Decimal)
  | VStr (s : string)
  | VList (l : list value)
  | VDict (m : gmap string value).

Definition is_mapping (v : value) : Prop :=
  match v with VDict _ => True | _ => False end.

Definition is_boolean (v : value) : Prop :=
  match v with VBool _ => True | _ => False end.

(** Truth value of an optional string, as [if name:] tests it: [None] and
    the empty string are false. *)
Definition truthy (o : option string) : bool :=
  match o with
  | Some s => negb (String.eqb s "")
  | None => false
  end.

(** ** Errors *)

Inductive Error :=
  | HTTPException (code : Z) (description : string)
  | DataValidationError (msg : string)
  | AttributeError (msg : string)
  | StoreError (msg : string).

Definition result (A : Type) : Type := Error + A.

Definition is_data_validation_error {A} (r : result A) : Prop :=
  ∃ msg, r = inl (DataValidationError msg).

Definition result_bind {A B} (r : result A) (k : A → result B) : result B :=
  match r with
  | inl e => inl e
  | inr a => k a
  end.

Fixpoint result_mapM {A B} (f : A → result B) (l : list A) : result (list B) :=
  match l with
  | [] => inr []
  | a :: l' =>
      result_bind (f a) (λ b,
      result_bind (result_mapM f l') (λ bs, inr (b :: bs)))
  end.

(** A computation over a state that returns or raises; what was written
    before an exception stays written. *)
Definition StateExc (S A : Type) : Type := S → result A * S.

Definition ret {S A} (a : A) : StateExc S A := λ st, (inr a, st).

Definition raise {S A} (e : Error) : StateExc S A := λ st, (inl e, st).

Definition lift {S A} (r : result A) : StateExc S A := λ st, (r, st).

Definition bind {S A B} (m : StateExc S A) (k : A → StateExc S B)
    : StateExc S B := λ st,
  match m st with
  | (inl e, st') => (inl e, st')
  | (inr a, st') => k a st'
  end.

Notation "x <- m ;; k" := (bind m (λ x, k))
  (at level 100, m at next level, right associativity).
Notation "m ;;; k" := (bind m (λ _, k))
  (at level 100, right associativity).

(** Modelled from the spec: the constants of [service/common/status.py],
    the standard HTTP status codes. *)
Definition HTTP_200_OK : Z := 200.
Definition HTTP_201_CREATED : Z := 201.
Definition HTTP_204_NO_CONTENT : Z := 204.
Definition HTTP_400_BAD_REQUEST : Z := 400.
Definition HTTP_404_NOT_FOUND : Z := 404.
Definition HTTP_415_UNSUPPORTED_MEDIA_TYPE : Z := 415.
Definition HTTP_500_INTERNAL_SERVER_ERROR : Z := 500.

(** ** The Product entity *)

Section Service.
Context {Category : Type} `{!Enumeration Category}.

(** Modelled from the spec: the [Product] class of [service/models.py].
    A fresh [Product()] has every attribute unset; [id] is [None] until the
    store assigns it; [name], [description], [price] and [available] hold
    whatever value was put there; [category] is a member of the
    enumeration once set. *)
Record Product := mkProduct {
  id : option Z;
  name : value;
  description : value;
  price : value;
  available : value;
  category : option Category
}.

Definition Product_new : Product :=
  mkProduct None VNone VNone VNone VNone None.

Definition set_id (i : option Z) (p : Product) : Product :=
  mkProduct i (name p) (description p) (price p) (available p) (category p).

Definition id_value (i : option Z) : value :=
  match i with
  | Some z => VInt z
  | None => VNone
  end.


(** Modelled from the spec: [Product.serialize], a mapping of all
    attributes with the category rendered as its name string.  Reading
    [.name] off an unset category raises [AttributeError]. *)
Definition serialize (self : Product) : result value :=
  match category self with
  | Some c =>
      inr (VDict (<["id" := id_value (id self)]>
                 (<["name" := name self]>
                 (<["description" := description self]>
                 (<["price" := price self]>
                 (<["available" := available self]>
                 (<["category" := VStr (name_of c)]> ∅)))))))
  | None => inl (AttributeError "'NoneType' object has no attribute 'name'")
  end.

(** [data[key]], a missing key being reported as a validation error. *)
Definition required (data : gmap string value) (key : string) : result value :=
  match data !! key with
  | Some v => inr v
  | None => inl (DataValidationError ("Invalid product: missing " +:+ key))
  end.

(** Modelled from the spec: [Product.deserialize], which populates the
    attributes of [self] from a mapping and leaves [id] alone (the id is
    assigned by the store and overwritten only explicitly).  It fails with
    a data-validation error when [data] is not a mapping, when a required
    key is missing, when [available] is not a boolean, and when
    [category] does not match a known enumeration name. *)
Definition deserialize (self : Product) (data : value) : result Product :=
  match data with
  | VDict d =>
      result_bind (required d "name") (λ n,
      result_bind (required d "description") (λ ds,
      result_bind (required d "price") (λ pr,
      result_bind (required d "available") (λ a,
      match a with
      | VBool _ =>
          result_bind (required d "category") (λ c,
          match c with
          | VStr s =>
              match getattr_enum s with
              | Some cat => inr (mkProduct (id self) n ds pr a (Some cat))
              | None => inl (DataValidationError ("Invalid attribute: " +:+ s))
              end
          | _ => inl (DataValidationError "Invalid attribute: category")
          end)
      | _ => inl (DataValidationError "Invalid type for boolean [available]")
      end))))
  | _ => inl (DataValidationError
                "Invalid product: body of request contained bad or no data")
  end.

(** The four ways a [data] argument is refused, in the words of the spec. *)
Definition required_keys : list string :=
  ["name"; "description"; "price"; "available"; "category"].

Definition missing_required_key (data : value) : Prop :=
  ∃ d k, data = VDict d ∧ k ∈ required_keys ∧ d !! k = None.

Definition available_not_boolean (data : value) : Prop :=
  ∃ d v, data = VDict d ∧ d !! "available" = Some v ∧ ¬ is_boolean v.

Definition category_unknown (data : value) : Prop :=
  ∃ d v, data = VDict d ∧ d !! "category" = Some v ∧
         ∀ c : Category, v ≠ VStr (name_of c).

Definition refused (data : value) : Prop :=
  ¬ is_mapping data ∨ missing_required_key data ∨
  available_not_boolean data ∨ category_unknown data.

(** What [deserialize] leaves in [self] when it accepts the mapping [d]. *)
Definition populated_from (d : gmap string value) (self p : Product) : Prop :=
  id p = id self ∧
  d !! "name" = Some (name p) ∧
  d !! "description" = Some (description p) ∧
  d !! "price" = Some (price p) ∧
  d !! "available" = Some (available p) ∧
  ∃ c, category p = Some c ∧ d !! "category" = Some (VStr (name_of c)).

(** ** The backing store *)

(** Modelled from the spec: the single table behind the [Product] model, a
    row per primary key, and the sequence the store draws fresh keys from.
    The key column is the id of a row: a row read back carries its key. *)
Record Store := mkStore {
  rows : gmap Z Product;
  next_id : Z
}.

Definition load (key : Z) (row : Product) : Product :=
  set_id (Some key) row.

Definition table (st : Store) : list Product :=
  (λ kv, load kv.1 kv.2) <$> map_to_list (rows st).

(** Handlers and entity methods run over the store. *)
Definition M : Type → Type := StateExc Store.

(** The not-null constraints of the table: every column but the key is
    required. *)
Definition is_null (v : value) : bool :=
  match v with VNone => true | _ => false end.

Definition columns_set (p : Product) : bool :=
  negb (is_null (name p)) && negb (is_null (description p)) &&
  negb (is_null (price p)) && negb (is_null (available p)) &&
  bool_decide (is_Some (category p)).

(** Modelled from the spec: [Product.create] inserts a new row and fails
    with a store error on a constraint violation (a required column left
    unset, a primary key already taken).  A product created with [id=None]
    is given its id by the store. *)
Definition create (self : Product) : M Product := λ st,
  if negb (columns_set self) then
    (inl (StoreError "null value violates not-null constraint"), st)
  else
    match id self with
    | None =>
        let i := next_id st in
        match rows st !! i with
        | Some _ =>
            (inl (StoreError "duplicate key value violates unique constraint"),
             mkStore (rows st) (i + 1))
        | None =>
            let self := set_id (Some i) self in
            (inr self, mkStore (<[i := self]> (rows st)) (i + 1))
        end
    | Some i =>
        match rows st !! i with
        | Some _ =>
            (inl (StoreError "duplicate key value violates unique constraint"),
             st)
        | None => (inr self, mkStore (<[i := self]> (rows st)) (next_id st))
        end
    end.

(** Modelled from the spec: [Product.update] fails with a data-validation
    error if the id is unset; otherwise it persists the current field
    values to the existing row. *)
Definition update (self : Product) : M () := λ st,
  match id self with
  | None =>
      (inl (DataValidationError "Update called with empty ID field"), st)
  | Some i => (inr (), mkStore (alter (λ _, self) i (rows st)) (next_id st))
  end.

(** Modelled from the spec: [Product.delete] removes the row if present. *)
Definition delete_ (self : Product) : M () := λ st,
  match id self with
  | None => (inr (), st)
  | Some i => (inr (), mkStore (delete i (rows st)) (next_id st))
  end.

(** Modelled from the spec: the class-level queries. [find] is a lookup by
    primary key, the others return the rows whose attribute equals the
    argument. *)
Definition all : M (list Product) := λ st, (inr (table st), st).

Definition find (product_id : Z) : M (option Product) := λ st,
  (inr (load product_id <$> rows st !! product_id), st).

Definition has_name (n : string) (p : Product) : bool :=
  match name p with
  | VStr s => bool_decide (s = n)
  | _ => false
  end.

Definition has_category (c : Category) (p : Product) : bool :=
  bool_decide (category p = Some c).

Definition has_availability (b : bool) (p : Product) : bool :=
  match available p with
  | VBool b' => bool_decide (b' = b)
  | _ => false
  end.

Definition find_by_name (n : string) : M (list Product) := λ st,
  (inr (List.filter (has_name n) (table st)), st).

Definition find_by_category (c : Category) : M (list Product) := λ st,
  (inr (List.filter (has_category c) (table st)), st).

(** Modelled from the spec: [Product.find_by_availability] accepts a
    boolean or a boolean-like string; which strings the store reads as
    booleans is left to [boolean_like], and a value it cannot read is a
    store error. *)
Definition find_by_availability (boolean_like : string → option bool)
    (a : value) : M (list Product) := λ st,
  let reading :=
    match a with
    | VBool b => Some b
    | VStr s => boolean_like s
    | _ => None
    end in
  match reading with
  | Some b =>
      (inr (List.filter (has_availability b) (table st)), st)
  | None => (inl (StoreError "invalid input syntax for type boolean"), st)
  end.

(** ** The route layer *)

(** What a handler reads off the Flask request: the headers (looked up
    without regard to the case of the field name), the query arguments
    (the first value of a repeated key wins) and the parsed JSON body, if
    the body parses. *)
Record Request := mkRequest {
  headers : list (string * string);
  args : list (string * string);
  json : option value
}.

Record Response := mkResponse {
  body : value;
  status : Z;
  response_headers : list (string * string)
}.

Definition headers_get (key : string) (hs : list (string * string))
    : option string :=
  snd <$> List.find (λ kv, String.eqb (lower kv.1) (lower key)) hs.

Definition args_get (key : string) (qs : list (string * string))
    : option string :=
  snd <$> List.find (λ kv, String.eqb kv.1 key) qs.

Definition abort {A} (code : Z) (description : string) : M A :=
  raise (HTTPException code description).

(** [request.get_json()]: a body that does not parse is a bad request. *)
Definition get_json (request : Request) : M value :=
  match json request with
  | Some data => ret data
  | None =>
      abort HTTP_400_BAD_REQUEST "Failed to decode JSON object"
  end.

(** [getattr(Category, s)] raises [AttributeError] on an unknown name. *)
Definition getattr_Category (s : string) : M Category :=
  match getattr_enum s with
  | Some c => ret c
  | None => raise (AttributeError s)
  end.

(** [if o: then_(o) else: else_] on an optional string. *)
Definition if_truthy {A} (o : option string) (then_ : string → A) (else_ : A)
    : A :=
  match o with
  | Some s => if String.eqb s "" then else_ else then_ s
  | None => else_
  end.

Definition check_content_type (request : Request) (content_type : string)
    : M () :=
  match headers_get "Content-Type" (headers request) with
  | None =>
      abort HTTP_415_UNSUPPORTED_MEDIA_TYPE
        ("Content-Type must be " +:+ content_type)
  | Some ct =>
      if String.eqb ct content_type then ret ()
      else
        abort HTTP_415_UNSUPPORTED_MEDIA_TYPE
          ("Content-Type must be " +:+ content_type)
  end.

Definition create_products (request : Request) : M Response :=
  check_content_type request "application/json" ;;;
  data <- get_json request ;;
  product <- lift (deserialize Product_new data) ;;
  product <- create product ;;
  message <- lift (serialize product) ;;
  let location_url := "/" in
  ret (mkResponse message HTTP_201_CREATED [("Location", location_url)]).

Definition list_products (boolean_like : string → option bool)
    (request : Request) : M Response :=
  let name := args_get "name" (args request) in
  let category := args_get "category" (args request) in
  let available := args_get "available" (args request) in
  products <-
    if_truthy name (λ name, find_by_name name)
    (if_truthy category (λ category,
       category_value <- getattr_Category (upper category) ;;
       find_by_category category_value)
    (if_truthy available (λ available,
       find_by_availability boolean_like (VStr available))
    all)) ;;
  prod_list <- lift (result_mapM serialize products) ;;
  ret (mkResponse (VList prod_list) HTTP_200_OK []).

Definition not_found_message (product_id : Z) : string :=
  "Product with ID - '" +:+ pretty product_id +:+ "' not found".

Definition update_products (product_id : Z) (request : Request)
    : M Response :=
  check_content_type request "application/json" ;;;
  found <- find product_id ;;
  match found with
  | None => abort HTTP_404_NOT_FOUND (not_found_message product_id)
  | Some product =>
      data <- get_json request ;;
      product <- lift (deserialize product data) ;;
      let product := set_id (Some product_id) product in
      update product ;;;
      message <- lift (serialize product) ;;
      ret (mkResponse message HTTP_200_OK [])
  end.

Definition delete_products (product_id : Z) : M Response :=
  found <- find product_id ;;
  match found with
  | Some product => delete_ product
  | None => ret ()
  end ;;;
  ret (mkResponse (VStr "") HTTP_204_NO_CONTENT []).

(** The answer of [GET /products] for a given result set: the products,
    each serialized, with status 200. *)
Definition listing (products : list Product) : M Response :=
  prod_list <- lift (result_mapM serialize products) ;;
  ret (mkResponse (VList prod_list) HTTP_200_OK []).

(** The [id] entry of a JSON answer. *)
Definition response_id (response : Response) : option value :=
  match body response with
  | VDict m => m !! "id"
  | _ => None
  end.



(** Modelled from the spec: the error handlers of
    [service/common/error_handlers.py], which turn what a handler raises
    into the status the caller sees.  An [abort] keeps its code, a
    data-validation error is a client error, anything else is propagated
    and ends as an internal error. *)
Definition error_status (e : Error) : Z :=
  match e with
  | HTTPException code _ => code
  | DataValidationError _ => HTTP_400_BAD_REQUEST
  | AttributeError _ => HTTP_500_INTERNAL_SERVER_ERROR
  | StoreError _ => HTTP_500_INTERNAL_SERVER_ERROR
  end.

Definition status_seen (r : result Response) : Z :=
  match r with
  | inl e => error_status e
  | inr response => status response
  end.

Definition is_client_error (code : Z) : bool :=
  ((400 <=? code) && (code <? 500))%Z.

(** ** The read handlers *)

(** [GET /health]: [jsonify(status=200, message="OK")] with status 200. *)
Definition healthcheck : M Response :=
  ret (mkResponse
         (VDict (<["status" := VInt 200]> (<["message" := VStr "OK"]> ∅)))
         HTTP_200_OK []).

(** Modelled from the spec: [Product.find] handed the path segment of
    [GET /products/<product_id>], which the route passes on as the string
    it is.  The store reads it as a key with [read_key]; a segment it
    cannot read as a key is a store error. *)
Definition find_segment (read_key : string → option Z) (product_id : string)
    : M (option Product) :=
  match read_key product_id with
  | Some key => find key
  | None => raise (StoreError "invalid input syntax for type integer")
  end.

Definition get_products (read_key : string → option Z) (product_id : string)
    : M Response :=
  found <- find_segment read_key product_id ;;
  match found with
  | None =>
      abort HTTP_404_NOT_FOUND
        ("Product with ID - '" +:+ product_id +:+ "' not found")
  | Some product =>
      message <- lift (serialize product) ;;
      ret (mkResponse message HTTP_200_OK [])
  end.

(** ** The loops of the model tests *)

(** [for ...: product = ProductFactory(); product.id = None;
    product.create()], over the products the factory hands out. *)
Fixpoint create_each (products : list Product) : M (list Product) :=
  match products with
  | [] => ret []
  | product :: rest =>
      product <- create (set_id None product) ;;
      created <- create_each rest ;;
      ret (product :: created)
  end.

(** ** What the handlers keep *)

(** A computation that hands the store back as it got it. *)
Definition read_only {A} (m : M A) : Prop := ∀ st, (m st).2 = st.

(** The shape of a store the handlers build: every key was drawn from the
    sequence, and every row has its category. *)
Definition store_ok (st : Store) : Prop :=
  ∀ i row, rows st !! i = Some row → i < next_id st ∧ is_Some (category row).

(** Which products [GET /products] selects, or what it raises instead. *)
Definition selection_of (boolean_like : string → option bool)
    (request : Request) (st : Store) (outcome : result (list Product))
    : Prop :=
  let name := args_get "name" (args request) in
  let category := args_get "category" (args request) in
  let available := args_get "available" (args request) in
  (∃ n, name = Some n ∧ n ≠ "" ∧
        outcome = inr (List.filter (has_name n) (table st))) ∨
  (truthy name = false ∧ ∃ c, category = Some c ∧ c ≠ "" ∧
     match getattr_enum (upper c) with
     | Some cv => outcome = inr (List.filter (has_category cv) (table st))
     | None => outcome = inl (AttributeError (upper c))
     end) ∨
  (truthy name = false ∧ truthy category = false ∧
   ∃ a, available = Some a ∧ a ≠ "" ∧
     match boolean_like a with
     | Some b => outcome = inr (List.filter (has_availability b) (table st))
     | None => ∃ msg, outcome = inl (StoreError msg)
     end) ∨
  (truthy name = false ∧ truthy category = false ∧
   truthy available = false ∧ outcome = inr (table st)).


End Service.

Arguments Product : clear implicits.
Arguments Store : clear implicits.
Arguments M : clear implicits.

(** ** A catalogue to run the model on *)

(** An enumeration that has the member the model tests name, [CLOTHS]. *)
Inductive CatalogCategory := UNKNOWN | CLOTHS | FOOD | HOUSEWARES | AUTOMOTIVE | TOOLS.

Definition CatalogCategory_name (c : CatalogCategory) : string :=
  match c with
  | UNKNOWN => "UNKNOWN"
  | CLOTHS => "CLOTHS"
  | FOOD => "FOOD"
  | HOUSEWARES => "HOUSEWARES"
  | AUTOMOTIVE => "AUTOMOTIVE"
  | TOOLS => "TOOLS"
  end.

#[global] Instance CatalogCategory_eq_dec : EqDecision CatalogCategory.
Proof. solve_decision. Defined.

#[global, refine] Instance CatalogCategory_enum : Enumeration CatalogCategory := {
  members := [UNKNOWN; CLOTHS; FOOD; HOUSEWARES; AUTOMOTIVE; TOOLS];
  name_of := CatalogCategory_name
}.
Proof.
  - intros []; repeat constructor.
  - intros [] []; simpl; intros Heq; first [reflexivity | discriminate Heq].
Defined.

(** A reading of boolean-like strings: [true] and [false] in any case. *)
Definition true_or_false (s : string) : option bool :=
  if String.eqb (lower s) "true" then Some true
  else if String.eqb (lower s) "false" then Some false
  else None.

(** The product of the model tests: a red hat. *)
Definition fedora : Product CatalogCategory :=
  mkProduct None (VStr "Fedora") (VStr "A red hat") (VDec (mkDecimal 1250 (-2)))
    (VBool true) (Some CLOTHS).

Definition fedora_json : value :=
  VDict (<["name" := VStr "Fedora"]>
        (<["description" := VStr "A red hat"]>
        (<["price" := VDec (mkDecimal 1250 (-2))]>
        (<["available" := VBool true]>
        (<["category" := VStr "CLOTHS"]> ∅))))).

(** The same body with a string where the boolean belongs. *)
Definition fedora_json_available_string : value :=
  VDict (<["name" := VStr "Fedora"]>
        (<["description" := VStr "A red hat"]>
        (<["price" := VDec (mkDecimal 1250 (-2))]>
        (<["available" := VStr "Available"]>
        (<["category" := VStr "CLOTHS"]> ∅))))).

Definition empty_store : Store CatalogCategory := mkStore ∅ 1.

Definition json_headers : list (string * string) :=
  [("Content-Type", "application/json")].

Definition post_fedora : Request :=
  mkRequest json_headers [] (Some fedora_json).

(** The store after the red hat was created in an empty one. *)
Definition hat_store : Store CatalogCategory :=
  mkStore (<[1 := set_id (Some 1) fedora]> ∅) 2.

Definition get_products_with (qs : list (string * string)) : Request :=
  mkRequest [] qs None.

(** A reading of path segments as keys: decimal digits. *)
Fixpoint digits_value (s : string) (acc : N) : option N :=
  match s with
  | EmptyString => Some acc
  | String c s' =>
      let n := N_of_ascii c in
      if ((48 <=? n) && (n <=? 57))%N
      then digits_value s' (acc * 10 + (n - 48))%N
      else None
  end.

Definition decimal_key (s : string) : option Z :=
  match s with
  | EmptyString => None
  | _ => Z.of_N <$> digits_value s 0%N
  end.

(** The red hat, renamed; as a body for [PUT]. *)
Definition bowler_json : value :=
  VDict (<["name" := VStr "Bowler"]>
        (<["description" := VStr "A black hat"]>
        (<["price" := VDec (mkDecimal 1250 (-2))]>
        (<["available" := VBool false]>
        (<["category" := VStr "CLOTHS"]> ∅))))).

Definition put_bowler : Request :=
  mkRequest json_headers [] (Some bowler_json).

(** * Properties *)

Section Properties.
Context {Category : Type} `{!Enumeration Category}.
Implicit Types (p q self : Product Category) (st : Store Category).
Implicit Types (d : gmap string value) (data : value).

(** ** Looking a member up by name *)

Lemma getattr_enum_Some (s : string) (c : Category) :
  getattr_enum s = Some c → name_of c = s.
Proof.
  unfold getattr_enum. intros Hfind.
  apply find_some in Hfind as [_ Hname].
  by apply bool_decide_eq_true in Hname.
Qed.

Lemma getattr_enum_name (c : Category) : getattr_enum (name_of c) = Some c.
Proof.
  destruct (getattr_enum (name_of c)) as [c'|] eqn:Hfind.
  - f_equal. apply name_of_inj. by apply getattr_enum_Some.
  - unfold getattr_enum in Hfind.
    pose proof (members_all c) as Hin. apply list_elem_of_In in Hin.
    apply (find_none _ _ Hfind) in Hin.
    apply bool_decide_eq_false in Hin. by destruct Hin.
Qed.

Lemma getattr_enum_None (s : string) :
  getattr_enum s = None ↔ ∀ c : Category, name_of c ≠ s.
Proof.
  split.
  - intros Hnone c Hname. subst s. rewrite getattr_enum_name in Hnone.
    discriminate Hnone.
  - intros Hno. destruct (getattr_enum s) as [c|] eqn:Hfind; [|done].
    apply getattr_enum_Some in Hfind. by destruct (Hno c).
Qed.

(** ** Serialising and reading back *)

Lemma serialize_valid p (c : Category) :
  category p = Some c →
  serialize p =
    inr (VDict (<["id" := id_value (id p)]>
               (<["name" := name p]>
               (<["description" := description p]>
               (<["price" := price p]>
               (<["available" := available p]>
               (<["category" := VStr (name_of c)]> ∅))))))).
Proof. intros Hc. unfold serialize. by rewrite Hc. Qed.




(** ** Updating without an id *)

(** C3. [update()] on a product whose id is [None] fails with a
    data-validation error and leaves the store as it was. *)
Theorem update_without_id_fails self st :
  id self = None →
  ∃ msg, update self st = (inl (DataValidationError msg), st).
Proof. intros Hid. unfold update. rewrite Hid. by eexists. Qed.

(** ** What [deserialize] refuses *)

Lemma required_Some d (key : string) (v : value) :
  d !! key = Some v → required d key = inr v.
Proof. intros Hk. unfold required. by rewrite Hk. Qed.

Lemma required_None d (key : string) :
  d !! key = None → is_data_validation_error (required d key).
Proof. intros Hk. unfold required. rewrite Hk. by eexists. Qed.

Lemma accepted_not_refused d (n ds pr : value) (b : bool) (c : Category) :
  d !! "name" = Some n → d !! "description" = Some ds →
  d !! "price" = Some pr → d !! "available" = Some (VBool b) →
  d !! "category" = Some (VStr (name_of c)) →
  ¬ refused (VDict d).
Proof.
  intros Hn Hds Hpr Ha Hc [Hmap | [Hmiss | [Hbool | Hcat]]].
  - by apply Hmap.
  - destruct Hmiss as (d' & k & [= <-] & Hk & Hnone).
    unfold required_keys in Hk.
    repeat (apply elem_of_cons in Hk as [-> | Hk]; [congruence|]).
    by apply elem_of_nil in Hk.
  - destruct Hbool as (d' & v & [= <-] & Hv & Hnot).
    rewrite Ha in Hv. injection Hv as <-. by apply Hnot.
  - destruct Hcat as (d' & v & [= <-] & Hv & Hno).
    rewrite Hc in Hv. injection Hv as <-. by destruct (Hno c).
Qed.

(** Every call either is refused with a data-validation error or accepts
    the mapping and populates the attributes from it. *)
Lemma deserialize_cases self data :
  (refused data ∧ is_data_validation_error (deserialize self data)) ∨
  (¬ refused data ∧
   ∃ d p, data = VDict d ∧ deserialize self data = inr p ∧
          populated_from d self p).
Proof.
  destruct data as [| | | | |l|d];
    try (left; split; [left; by intros [] | by eexists]).
  assert (Hmissing : ∀ k, k ∈ required_keys → d !! k = None →
                     refused (VDict d)).
  { intros k Hk Hnone. right; left. by exists d, k. }
  unfold required_keys in Hmissing. simpl.
  destruct (d !! "name") as [n|] eqn:Hn; cycle 1.
  { left. split; [apply (Hmissing "name"); [set_solver | done]|].
    unfold required. rewrite Hn. by eexists. }
  rewrite (required_Some _ _ _ Hn). simpl.
  destruct (d !! "description") as [ds|] eqn:Hds; cycle 1.
  { left. split; [apply (Hmissing "description"); [set_solver | done]|].
    unfold required. rewrite Hds. by eexists. }
  rewrite (required_Some _ _ _ Hds). simpl.
  destruct (d !! "price") as [pr|] eqn:Hpr; cycle 1.
  { left. split; [apply (Hmissing "price"); [set_solver | done]|].
    unfold required. rewrite Hpr. by eexists. }
  rewrite (required_Some _ _ _ Hpr). simpl.
  destruct (d !! "available") as [a|] eqn:Ha; cycle 1.
  { left. split; [apply (Hmissing "available"); [set_solver | done]|].
    unfold required. rewrite Ha. by eexists. }
  rewrite (required_Some _ _ _ Ha). simpl.
  destruct a as [|b| | | | |];
    try (left; split; [|by eexists];
         right; right; left; exists d; eexists;
         split; [reflexivity|]; split; [exact Ha|]; by intros []).
  destruct (d !! "category") as [cv|] eqn:Hc; cycle 1.
  { left. split; [apply (Hmissing "category"); [set_solver | done]|].
    unfold required. rewrite Hc. by eexists. }
  rewrite (required_Some _ _ _ Hc). simpl.
  destruct cv as [| | | |s| |];
    try (left; split; [|by eexists];
         right; right; right; exists d; eexists;
         split; [reflexivity|]; split; [exact Hc|]; by intros c).
  destruct (getattr_enum s) as [c|] eqn:Hfind.
  - apply getattr_enum_Some in Hfind as <-. right. split.
    + by apply (accepted_not_refused d n ds pr b c).
    + eexists d, _. split; [done|]. split; [done|].
      repeat split; simpl; try done. by exists c.
  - left. split; [|by eexists]. right; right; right.
    exists d, (VStr s). repeat split; [done|].
    intros c [= ->]. rewrite getattr_enum_name in Hfind. discriminate Hfind.
Qed.

(** C4. [deserialize(data)] fails with a data-validation error exactly
    when [data] is not a mapping, a required key is missing, the value of
    [available] is not a boolean, or the value of [category] matches no
    enumeration name; otherwise it returns the product with its attributes
    populated from the mapping. It raises nothing else. *)
Theorem deserialize_fails_exactly_when self data :
  (is_data_validation_error (deserialize self data) ↔ refused data) ∧
  (∀ e, deserialize self data = inl e → ∃ msg, e = DataValidationError msg) ∧
  (¬ refused data →
   ∃ d p, data = VDict d ∧ deserialize self data = inr p ∧
          populated_from d self p).
Proof.
  destruct (deserialize_cases self data)
    as [[Href Hfail] | [Hacc (d & p & -> & Hok & Hpop)]].
  - split; [done|]. split; [|done].
    intros e He. destruct Hfail as [msg Hmsg]. rewrite Hmsg in He.
    injection He as <-. by eexists.
  - split; [|split].
    + split; [|done]. intros [msg Hmsg]. rewrite Hok in Hmsg.
      discriminate Hmsg.
    + intros e He. rewrite Hok in He. discriminate He.
    + intros _. by exists d, p.
Qed.

(** ** Creating and finding *)

Lemma create_succeeds p st :
  columns_set p = true → id p = None → rows st !! next_id st = None →
  create p st =
    (inr (set_id (Some (next_id st)) p),
     mkStore (<[next_id st := set_id (Some (next_id st)) p]> (rows st))
             (next_id st + 1)).
Proof.
  intros Hcols Hid Hfree. unfold create. by rewrite Hcols, Hid, Hfree.
Qed.

Lemma create_fresh p p' st st' :
  id p = None → create p st = (inr p', st') →
  p' = set_id (Some (next_id st)) p ∧ rows st !! next_id st = None ∧
  st' = mkStore (<[next_id st := p']> (rows st)) (next_id st + 1).
Proof.
  intros Hid Hcreate. unfold create in Hcreate. rewrite Hid in Hcreate.
  destruct (negb (columns_set p)); [discriminate Hcreate|].
  destruct (rows st !! next_id st) as [taken|] eqn:Hfree;
    [discriminate Hcreate|].
  by injection Hcreate as <- <-.
Qed.

(** C2. For a product with [id=None], after a successful [create()] the
    product holds a non-null id that no row of the store had (the next
    value of the store's sequence, which then moves past it), and
    [find(id)] returns a product with the name, description, price,
    availability and category of the created one. *)
Theorem create_assigns_fresh_id_then_find p p' st st' :
  id p = None → create p st = (inr p', st') →
  ∃ i found,
    id p' = Some i ∧ (i ∉ dom (rows st)) ∧ (next_id st ≤ i < next_id st') ∧
    find i st' = (inr (Some found), st') ∧
    name found = name p ∧ description found = description p ∧
    price found = price p ∧ available found = available p ∧
    category found = category p.
Proof.
  intros Hid Hcreate.
  destruct (create_fresh p p' st st' Hid Hcreate) as (-> & Hfree & ->).
  exists (next_id st), (set_id (Some (next_id st)) p). simpl.
  split; [done|]. split; [by apply not_elem_of_dom|]. split; [lia|].
  split; [|done]. unfold find. simpl. by rewrite lookup_insert_eq.
Qed.

(** ** Deleting *)

Lemma delete_products_store product_id st :
  delete_products product_id st =
    (inr (mkResponse (VStr "") HTTP_204_NO_CONTENT []),
     mkStore (delete product_id (rows st)) (next_id st)).
Proof.
  unfold delete_products, bind, find, delete_, ret.
  destruct (rows st !! product_id) as [p|] eqn:Hrow; simpl; [done|].
  rewrite (delete_id _ _ Hrow). by destruct st.
Qed.

(** C5. [DELETE /products/{id}] answers every id with an empty body and
    204. When the id is present exactly that row goes (one record fewer,
    the others untouched); when it is absent the store is unchanged; and a
    second call changes nothing more. *)
Theorem delete_products_idempotent product_id st :
  ∃ st',
    delete_products product_id st =
      (inr (mkResponse (VStr "") HTTP_204_NO_CONTENT []), st') ∧
    find product_id st' = (inr None, st') ∧
    (∀ j, j ≠ product_id → rows st' !! j = rows st !! j) ∧
    (is_Some (rows st !! product_id) → size (rows st) = S (size (rows st'))) ∧
    (rows st !! product_id = None →
     st' = st ∧ size (rows st') = size (rows st)) ∧
    delete_products product_id st' =
      (inr (mkResponse (VStr "") HTTP_204_NO_CONTENT []), st').
Proof.
  eexists. split; [by apply delete_products_store|]. simpl.
  split; [unfold find; simpl; by rewrite lookup_delete_eq|].
  split; [intros j Hj; by apply lookup_delete_ne|].
  split; [|split].
  - intros [p Hrow].
    rewrite <-(insert_delete_id (rows st) product_id p Hrow) at 1.
    apply map_size_insert_None, lookup_delete_eq.
  - intros Hrow. rewrite (delete_id _ _ Hrow). by destruct st.
  - rewrite delete_products_store. simpl. by rewrite delete_delete_eq.
Qed.

(** ** The content type of a request *)

Lemma check_content_type_spec request (content_type : string) st :
  check_content_type request content_type st =
    if bool_decide (headers_get "Content-Type" (headers request)
                    = Some content_type)
    then (inr (), st)
    else (inl (HTTPException HTTP_415_UNSUPPORTED_MEDIA_TYPE
                 ("Content-Type must be " +:+ content_type)), st).
Proof.
  unfold check_content_type.
  destruct (headers_get "Content-Type" (headers request)) as [ct|].
  - destruct (String.eqb_spec ct content_type) as [-> | Hne].
    + by rewrite bool_decide_eq_true_2.
    + rewrite bool_decide_eq_false_2; [done|]. by intros [= ->].
  - by rewrite bool_decide_eq_false_2.
Qed.

(** C10. [POST /products] and [PUT /products/{id}] compare the
    Content-Type header with ["application/json"] by string equality: the
    check passes exactly when the header is that string, and a request
    without the header or with any other value is rejected with a 415
    whose message names the required type. *)
Theorem content_type_must_be_exactly_json request st :
  headers_get "Content-Type" (headers request) ≠ Some "application/json" →
  check_content_type request "application/json" st ≠ (inr (), st) ∧
  create_products request st =
    (inl (HTTPException 415 "Content-Type must be application/json"), st) ∧
  ∀ product_id,
    update_products product_id request st =
      (inl (HTTPException 415 "Content-Type must be application/json"), st).
Proof.
  intros Hct.
  pose proof (check_content_type_spec request "application/json" st) as Hchk.
  rewrite bool_decide_eq_false_2 in Hchk by done.
  split; [by rewrite Hchk|].
  split; [|intros product_id]; unfold create_products, update_products, bind;
    by rewrite Hchk.
Qed.

Lemma content_type_json_passes request st :
  headers_get "Content-Type" (headers request) = Some "application/json" →
  check_content_type request "application/json" st = (inr (), st).
Proof.
  intros Hct. rewrite check_content_type_spec.
  by rewrite bool_decide_eq_true_2.
Qed.

(** ** Listing with filters *)

Lemma if_truthy_true {A} (o : option string) (s : string) (f : string → A)
    (e : A) :
  o = Some s → s ≠ "" → if_truthy o f e = f s.
Proof.
  intros -> Hs. simpl. by destruct (String.eqb_spec s "").
Qed.

Lemma if_truthy_false {A} (o : option string) (f : string → A) (e : A) :
  truthy o = false → if_truthy o f e = e.
Proof.
  destruct o as [s|]; [|done]. simpl.
  by destruct (String.eqb s "").
Qed.

Lemma list_products_unfold (boolean_like : string → option bool) request st :
  list_products boolean_like request st =
    (products <-
       if_truthy (args_get "name" (args request)) (λ name, find_by_name name)
       (if_truthy (args_get "category" (args request)) (λ category,
          category_value <- getattr_Category (upper category) ;;
          find_by_category category_value)
       (if_truthy (args_get "available" (args request)) (λ available,
          find_by_availability boolean_like (VStr available))
       all)) ;;
     listing products) st.
Proof. reflexivity. Qed.

(** C6. [GET /products] applies at most one filter, by precedence: a
    given name selects [find_by_name]; else a given category selects
    [find_by_category] of the member it maps to; else a given
    availability selects [find_by_availability]; else all products are
    listed. The products are returned each serialized. A filter is given
    when the handler's own test [if name:] holds of its query value. *)
Theorem list_products_precedence (boolean_like : string → option bool)
    request st :
  let name := args_get "name" (args request) in
  let category := args_get "category" (args request) in
  let available := args_get "available" (args request) in
  (∀ n, name = Some n → n ≠ "" →
     list_products boolean_like request st =
       (products <- find_by_name n ;; listing products) st) ∧
  (truthy name = false →
   ∀ c cv, category = Some c → c ≠ "" → getattr_enum (upper c) = Some cv →
     list_products boolean_like request st =
       (products <- find_by_category cv ;; listing products) st) ∧
  (truthy name = false → truthy category = false →
   ∀ a, available = Some a → a ≠ "" →
     list_products boolean_like request st =
       (products <- find_by_availability boolean_like (VStr a) ;;
        listing products) st) ∧
  (truthy name = false → truthy category = false →
   truthy available = false →
     list_products boolean_like request st =
       (products <- all ;; listing products) st).
Proof.
  intros name category available. rewrite list_products_unfold.
  fold name category available.
  split; [|split; [|split]].
  - intros n Hn Hne. by rewrite (if_truthy_true _ n).
  - intros Hname c cv Hc Hne Hmap. rewrite (if_truthy_false _ _ _ Hname).
    rewrite (if_truthy_true _ c) by done.
    unfold bind, getattr_Category. by rewrite Hmap.
  - intros Hname Hcat a Ha Hne.
    rewrite (if_truthy_false _ _ _ Hname), (if_truthy_false _ _ _ Hcat).
    by rewrite (if_truthy_true _ a).
  - intros Hname Hcat Hav.
    by rewrite (if_truthy_false _ _ _ Hname), (if_truthy_false _ _ _ Hcat),
      (if_truthy_false _ _ _ Hav).
Qed.

(** ** Empty query values *)




(** ** A category that is no member *)

(** When the category filter is the one applied and its value maps to no
    member, the handler lets the [AttributeError] of [getattr] escape. *)
Lemma list_products_unknown_category (boolean_like : string → option bool)
    request (c : string) st :
  truthy (args_get "name" (args request)) = false →
  args_get "category" (args request) = Some c → c ≠ "" →
  getattr_enum (upper c) = (None : option Category) →
  list_products boolean_like request st = (inl (AttributeError (upper c)), st).
Proof.
  intros Hname Hc Hne Hmap. rewrite list_products_unfold.
  rewrite (if_truthy_false _ _ _ Hname), (if_truthy_true _ c) by done.
  unfold bind, getattr_Category. by rewrite Hmap.
Qed.

(** ** Creating through the route *)

(** Every successful [POST /products] answers 201 with the serialized
    product it stored under a fresh id, and the Location header is the
    constant ["/"]. *)
Lemma create_products_response request (response : Response) st st' :
  create_products request st = (inr response, st') →
  status response = HTTP_201_CREATED ∧
  response_headers response = [("Location", "/")] ∧
  ∃ product i,
    id product = Some i ∧ rows st !! i = None ∧
    rows st' !! i = Some product ∧ serialize product = inr (body response).
Proof.
  unfold create_products, bind. intros Hpost.
  rewrite check_content_type_spec in Hpost.
  case_bool_decide; [|discriminate Hpost].
  unfold get_json in Hpost.
  destruct (json request) as [data|]; [|discriminate Hpost].
  unfold ret, lift in Hpost.
  destruct (deserialize Product_new data) as [e|p] eqn:Hdes;
    [discriminate Hpost|].
  assert (id p = None) as Hid.
  { destruct (deserialize_cases Product_new data)
      as [[_ [msg Hmsg]] | [_ (d & p0 & _ & Hok & Hpop)]].
    - rewrite Hmsg in Hdes. discriminate Hdes.
    - rewrite Hok in Hdes. injection Hdes as <-. by destruct Hpop as [-> _]. }
  destruct (create p st) as [[e|p'] st1] eqn:Hcreate; [discriminate Hpost|].
  destruct (serialize p') as [e|message] eqn:Hser; [discriminate Hpost|].
  injection Hpost as <- <-. simpl.
  split; [done|]. split; [done|].
  destruct (create_fresh p p' st st1 Hid Hcreate) as (Hp' & Hfree & ->).
  exists p', (next_id st). simpl.
  split; [by rewrite Hp'|]. split; [done|].
  split; [apply lookup_insert_eq | done].
Qed.

End Properties.

(** * The model at work on the catalogue *)



(** Creating the red hat in an empty store gives it id 1. *)
Lemma create_fedora_then_find :
  id fedora = None ∧
  create fedora empty_store = (inr (set_id (Some 1) fedora), hat_store) ∧
  ∃ i found,
    id (set_id (Some 1) fedora) = Some i ∧ (i ∉ dom (rows empty_store)) ∧
    (next_id empty_store ≤ i < next_id hat_store) ∧
    find i hat_store = (inr (Some found), hat_store) ∧
    name found = name fedora ∧ description found = description fedora ∧
    price found = price fedora ∧ available found = available fedora ∧
    category found = category fedora.
Proof.
  split; [reflexivity|]. split; [reflexivity|].
  apply (create_assigns_fresh_id_then_find fedora (set_id (Some 1) fedora)
           empty_store hat_store); reflexivity.
Defined.

(** The red hat, not yet created, cannot be updated. *)
Lemma update_fedora_without_id_fails :
  id fedora = None ∧
  ∃ msg, update fedora hat_store = (inl (DataValidationError msg), hat_store).
Proof.
  split; [reflexivity|].
  apply (update_without_id_fails fedora hat_store). reflexivity.
Defined.

(** With the string ["Available"] for the availability the body of the
    example request is refused. *)
Lemma deserialize_available_string_refused :
  refused (Category := CatalogCategory) fedora_json_available_string ∧
  is_data_validation_error (deserialize fedora fedora_json_available_string).
Proof.
  assert (refused (Category := CatalogCategory) fedora_json_available_string)
    as Href.
  { right; right; left. eexists _, (VStr "Available").
    split; [reflexivity|]. split; [reflexivity|]. by intros []. }
  split; [exact Href|].
  by apply (deserialize_fails_exactly_when fedora fedora_json_available_string).
Defined.

(** Deleting the red hat, then deleting it again. *)
Lemma delete_products_hat :
  is_Some (rows hat_store !! 1) ∧
  ∃ st',
    delete_products 1 hat_store =
      (inr (mkResponse (VStr "") HTTP_204_NO_CONTENT []), st') ∧
    find 1 st' = (inr None, st') ∧
    (∀ j, j ≠ 1 → rows st' !! j = rows hat_store !! j) ∧
    (is_Some (rows hat_store !! 1) →
     size (rows hat_store) = S (size (rows st'))) ∧
    (rows hat_store !! 1 = None →
     st' = hat_store ∧ size (rows st') = size (rows hat_store)) ∧
    delete_products 1 st' =
      (inr (mkResponse (VStr "") HTTP_204_NO_CONTENT []), st').
Proof.
  split; [by eexists|].
  apply (delete_products_idempotent 1 hat_store).
Defined.

(** The four branches of the listing, on the store that holds the hat. *)
Lemma list_products_precedence_hat :
  list_products true_or_false
      (get_products_with [("name", "Fedora"); ("category", "food")]) hat_store
    = (products <- find_by_name "Fedora" ;; listing products) hat_store ∧
  list_products true_or_false
      (get_products_with [("name", ""); ("category", "cloths");
                          ("available", "false")]) hat_store
    = (products <- find_by_category CLOTHS ;; listing products) hat_store ∧
  list_products true_or_false
      (get_products_with [("available", "true")]) hat_store
    = (products <- find_by_availability true_or_false (VStr "true") ;;
       listing products) hat_store ∧
  list_products true_or_false (get_products_with []) hat_store
    = (products <- all ;; listing products) hat_store.
Proof.
  split; [|split; [|split]].
  - destruct (list_products_precedence true_or_false
                (get_products_with [("name", "Fedora"); ("category", "food")])
                hat_store) as (Hname & _).
    apply (Hname "Fedora"); [reflexivity | discriminate].
  - destruct (list_products_precedence true_or_false
                (get_products_with [("name", ""); ("category", "cloths");
                                    ("available", "false")]) hat_store)
      as (_ & Hcategory & _).
    apply (Hcategory eq_refl "cloths" CLOTHS);
      [reflexivity | discriminate | reflexivity].
  - destruct (list_products_precedence true_or_false
                (get_products_with [("available", "true")]) hat_store)
      as (_ & _ & Havailable & _).
    apply (Havailable eq_refl eq_refl "true"); [reflexivity | discriminate].
  - destruct (list_products_precedence true_or_false (get_products_with [])
                hat_store) as (_ & _ & _ & Hall).
    apply Hall; reflexivity.
Defined.


(** A charset parameter is enough to be turned away. *)
Lemma content_type_with_charset_rejected :
  let request :=
    mkRequest [("Content-Type", "application/json; charset=utf-8")] []
      (Some fedora_json) in
  headers_get "Content-Type" (headers request) ≠ Some "application/json" ∧
  create_products request hat_store =
    (inl (HTTPException 415 "Content-Type must be application/json"),
     hat_store) ∧
  update_products 1 request hat_store =
    (inl (HTTPException 415 "Content-Type must be application/json"),
     hat_store).
Proof.
  intros request.
  assert (headers_get "Content-Type" (headers request)
          ≠ Some "application/json") as Hct by discriminate.
  split; [exact Hct|].
  destruct (content_type_must_be_exactly_json request hat_store Hct)
    as (_ & Hpost & Hput).
  split; [exact Hpost | exact (Hput 1)].
Defined.

(** C7, on the code as it stands. [GET /products?category=bogus]: the
    value maps to no member of the enumeration, [getattr] raises
    [AttributeError], the handler does not catch it, and what the caller
    sees is an internal error, not a client error. *)
Theorem list_products_unknown_category_internal_error :
  let answer :=
    (list_products true_or_false
       (get_products_with [("category", "bogus")]) hat_store).1 in
  getattr_enum (upper "bogus") = (None : option CatalogCategory) ∧
  answer = inl (AttributeError "BOGUS") ∧
  status_seen answer = HTTP_500_INTERNAL_SERVER_ERROR ∧
  is_client_error (status_seen answer) = false.
Proof.
  intros answer.
  assert (answer = inl (AttributeError "BOGUS")) as ->.
  { unfold answer.
    by rewrite (list_products_unknown_category true_or_false _ "bogus"). }
  by repeat split.
Qed.

(** C8, on the code as it stands. Two valid [POST /products] requests in
    a row are answered 201 with the serialized product, ids 1 and 2, and
    both carry the same Location, the constant ["/"]: the header does not
    refer to the product that was created. *)
Theorem create_products_location_is_root :
  ∃ first second st1 st2,
    create_products post_fedora empty_store = (inr first, st1) ∧
    create_products post_fedora st1 = (inr second, st2) ∧
    status first = HTTP_201_CREATED ∧ status second = HTTP_201_CREATED ∧
    inr (body first) = serialize (set_id (Some 1) fedora) ∧
    response_id first = Some (VInt 1) ∧ response_id second = Some (VInt 2) ∧
    response_headers first = [("Location", "/")] ∧
    response_headers second = [("Location", "/")].
Proof.
  destruct (create_products post_fedora empty_store)
    as [[e|first] st1] eqn:Hfirst; [by vm_compute in Hfirst|].
  destruct (create_products post_fedora st1)
    as [[e|second] st2] eqn:Hsecond.
  { vm_compute in Hfirst. injection Hfirst as <- <-.
    by vm_compute in Hsecond. }
  exists first, second, st1, st2.
  split; [done|]. split; [done|].
  vm_compute in Hfirst. injection Hfirst as <- <-.
  vm_compute in Hsecond. injection Hsecond as <- <-.
  by repeat split.
Qed.

(** * The handlers at large *)

Section Handlers.
Context {Category : Type} `{!Enumeration Category}.
Context (boolean_like : string → option bool) (read_key : string → option Z).
Implicit Types (p row product : Product Category) (st : Store Category).
Implicit Types (request : Request) (response : Response).

(** ** Reading leaves the store alone *)

Lemma read_only_ret {A} (a : A) : read_only (Category := Category) (ret a).
Proof. by intros st. Qed.

Lemma read_only_raise {A} (e : Error) :
  read_only (Category := Category) (A := A) (raise e).
Proof. by intros st. Qed.

Lemma read_only_lift {A} (r : result A) :
  read_only (Category := Category) (lift r).
Proof. by intros st. Qed.

Lemma read_only_bind {A B} (m : M Category A) (k : A → M Category B) :
  read_only m → (∀ a, read_only (k a)) → read_only (x <- m ;; k x).
Proof.
  intros Hm Hk st. unfold bind. specialize (Hm st).
  destruct (m st) as [[e|a] st1]; simpl in *; subst; [done|]. apply Hk.
Qed.

Lemma read_only_if_truthy {A} (o : option string) (f : string → M Category A)
    (e : M Category A) :
  (∀ s, read_only (f s)) → read_only e → read_only (if_truthy o f e).
Proof.
  intros Hf He. destruct o as [s|]; simpl; [|done].
  by destruct (String.eqb s "").
Qed.

Lemma read_only_find_by_availability (a : value) :
  read_only (Category := Category) (find_by_availability boolean_like a).
Proof.
  intros st. unfold find_by_availability.
  by destruct (match a with VBool b => Some b | VStr s => boolean_like s
                          | _ => None end).
Qed.

Lemma read_only_list_products request :
  read_only (Category := Category) (list_products boolean_like request).
Proof.
  unfold list_products. apply read_only_bind.
  - repeat apply read_only_if_truthy; try done.
    + intros c. apply read_only_bind; [|done].
      intros st. unfold getattr_Category. by destruct (getattr_enum _).
    + intros a. apply read_only_find_by_availability.
  - intros products. apply read_only_bind; [apply read_only_lift|].
    intros prod_list. apply read_only_ret.
Qed.

Lemma read_only_get_products (product_id : string) :
  read_only (Category := Category) (get_products read_key product_id).
Proof.
  unfold get_products. apply read_only_bind.
  - intros st. unfold find_segment. by destruct (read_key product_id).
  - intros [product|]; [|apply read_only_raise].
    apply read_only_bind; [apply read_only_lift|].
    intros message. apply read_only_ret.
Qed.

(** X1. The three read handlers, [GET /health], [GET /products] and
    [GET /products/<product_id>], hand the store back exactly as they got
    it, whether they answer or raise. *)
Theorem read_handlers_leave_store request (product_id : string) st :
  (healthcheck st).2 = st ∧
  (list_products boolean_like request st).2 = st ∧
  (get_products read_key product_id st).2 = st.
Proof.
  split; [done|]. split.
  - apply read_only_list_products.
  - apply read_only_get_products.
Qed.

(** ** Reading one product *)

Lemma get_products_row (product_id : string) (key : Z) st :
  read_key product_id = Some key →
  get_products read_key product_id st =
    match rows st !! key with
    | None =>
        (inl (HTTPException HTTP_404_NOT_FOUND
                ("Product with ID - '" +:+ product_id +:+ "' not found")), st)
    | Some row =>
        match serialize (load key row) with
        | inl e => (inl e, st)
        | inr message => (inr (mkResponse message HTTP_200_OK []), st)
        end
    end.
Proof.
  intros Hkey. unfold get_products, find_segment, bind, find. rewrite Hkey.
  destruct (rows st !! key) as [row|]; simpl; [|done].
  unfold lift. by destruct (serialize (load key row)).
Qed.

(** X2. [GET /products/<product_id>] for a key the store does not hold
    aborts with 404 and a message that quotes the path segment as it was
    written; the store is unchanged. *)
Theorem get_products_absent (product_id : string) (key : Z) st :
  read_key product_id = Some key → rows st !! key = None →
  get_products read_key product_id st =
    (inl (HTTPException 404
            ("Product with ID - '" +:+ product_id +:+ "' not found")), st).
Proof.
  intros Hkey Hrow. by rewrite (get_products_row _ key), Hrow.
Qed.

(** X3. [GET /products/<product_id>] for a stored product whose category
    is set answers 200 with the serialized row, and the [id] of the body
    is the key that was asked for. *)
Theorem get_products_present (product_id : string) (key : Z) row st :
  read_key product_id = Some key → rows st !! key = Some row →
  is_Some (category row) →
  ∃ response,
    get_products read_key product_id st = (inr response, st) ∧
    status response = 200 ∧ response_headers response = [] ∧
    serialize (load key row) = inr (body response) ∧
    response_id response = Some (VInt key).
Proof.
  intros Hkey Hrow [c Hc]. rewrite (get_products_row _ key), Hrow by done.
  rewrite (serialize_valid (load key row) c) by done.
  eexists. split; [done|]. split; [done|]. split; [done|]. split; [done|].
  unfold response_id. simpl. by simplify_map_eq.
Qed.

(** X4. After [DELETE /products/{id}] a [GET] of that id is a 404,
    whatever the store held before. *)
Theorem get_products_after_delete (product_id : string) (key : Z) st :
  read_key product_id = Some key →
  let st' := (delete_products key st).2 in
  get_products read_key product_id st' =
    (inl (HTTPException 404
            ("Product with ID - '" +:+ product_id +:+ "' not found")), st').
Proof.
  intros Hkey st'. rewrite (get_products_row _ key) by done.
  unfold st'. rewrite delete_products_store. simpl.
  by rewrite lookup_delete_eq.
Qed.

(** ** Creating through the route, step by step *)

Lemma deserialize_keeps_id p (self : Product Category) (data : value) :
  deserialize self data = inr p → id p = id self ∧ is_Some (category p).
Proof.
  intros Hdes.
  destruct (deserialize_cases self data)
    as [[_ [msg Hmsg]] | [_ (d & p0 & _ & Hok & Hid & _ & _ & _ & _ & c & Hc & _)]].
  - rewrite Hmsg in Hdes. discriminate Hdes.
  - rewrite Hok in Hdes. injection Hdes as <-. split; [done|]. by exists c.
Qed.

Lemma deserialize_error_kind (self : Product Category) (data : value)
    (e : Error) :
  deserialize self data = inl e → ∃ msg, e = DataValidationError msg.
Proof.
  intros Hdes.
  destruct (deserialize_cases self data)
    as [[_ [msg Hmsg]] | [_ (d & p & _ & Hok & _)]].
  - rewrite Hmsg in Hdes. injection Hdes as <-. by exists msg.
  - rewrite Hok in Hdes. discriminate Hdes.
Qed.

Lemma columns_set_category p : columns_set p = true → is_Some (category p).
Proof.
  unfold columns_set. intros Hcols.
  apply andb_prop in Hcols as [_ Hcat]. by apply bool_decide_eq_true in Hcat.
Qed.

Lemma serialize_is_Some p :
  is_Some (category p) → ∃ message, serialize p = inr message.
Proof. intros [c Hc]. eexists. by apply (serialize_valid p c). Qed.

Lemma create_products_unfold request st :
  create_products request st =
    if bool_decide (headers_get "Content-Type" (headers request)
                    = Some "application/json")
    then
      match json request with
      | None =>
          (inl (HTTPException HTTP_400_BAD_REQUEST
                  "Failed to decode JSON object"), st)
      | Some data =>
          match deserialize Product_new data with
          | inl e => (inl e, st)
          | inr p =>
              match create p st with
              | (inl e, st1) => (inl e, st1)
              | (inr product, st1) =>
                  match serialize product with
                  | inl e => (inl e, st1)
                  | inr message =>
                      (inr (mkResponse message HTTP_201_CREATED
                              [("Location", "/")]), st1)
                  end
              end
          end
      end
    else
      (inl (HTTPException HTTP_415_UNSUPPORTED_MEDIA_TYPE
              "Content-Type must be application/json"), st).
Proof.
  unfold create_products, bind. rewrite check_content_type_spec.
  case_bool_decide; [|done]. unfold get_json.
  destruct (json request) as [data|]; [|done]. unfold ret, lift.
  destruct (deserialize Product_new data) as [e|p]; [done|].
  destruct (create p st) as [[e|product] st1]; [done|].
  by destruct (serialize product).
Qed.

Lemma create_new p st :
  id p = None →
  create p st =
    if negb (columns_set p) then
      (inl (StoreError "null value violates not-null constraint"), st)
    else
      match rows st !! next_id st with
      | Some _ =>
          (inl (StoreError "duplicate key value violates unique constraint"),
           mkStore (rows st) (next_id st + 1))
      | None =>
          (inr (set_id (Some (next_id st)) p),
           mkStore (<[next_id st := set_id (Some (next_id st)) p]> (rows st))
                   (next_id st + 1))
      end.
Proof. intros Hid. unfold create. by rewrite Hid. Qed.

(** What a successful [POST /products] did. *)
Lemma create_products_inv request response st st' :
  create_products request st = (inr response, st') →
  ∃ data p message,
    headers_get "Content-Type" (headers request) = Some "application/json" ∧
    json request = Some data ∧ deserialize Product_new data = inr p ∧
    columns_set p = true ∧ rows st !! next_id st = None ∧
    serialize (set_id (Some (next_id st)) p) = inr message ∧
    response = mkResponse message HTTP_201_CREATED [("Location", "/")] ∧
    st' = mkStore (<[next_id st := set_id (Some (next_id st)) p]> (rows st))
                  (next_id st + 1).
Proof.
  rewrite create_products_unfold. intros Hpost.
  case_bool_decide as Hct; [|discriminate Hpost].
  destruct (json request) as [data|]; [|discriminate Hpost].
  destruct (deserialize Product_new data) as [e|p] eqn:Hdes;
    [discriminate Hpost|].
  destruct (deserialize_keeps_id _ _ _ Hdes) as [Hid _].
  rewrite (create_new p st Hid) in Hpost.
  destruct (columns_set p) eqn:Hcols; [|discriminate Hpost]. simpl in Hpost.
  destruct (rows st !! next_id st) eqn:Hfree; [discriminate Hpost|].
  destruct (serialize (set_id (Some (next_id st)) p)) as [e|message] eqn:Hser;
    [discriminate Hpost|].
  injection Hpost as <- <-. by exists data, p, message.
Qed.

(** X5. A [POST /products] with the JSON content type, a body that
    [deserialize] accepts and that has no null name, description or price,
    on a store whose next key is free, answers 201 with the serialized
    product under that key: one row more, the others as they were, and
    the sequence moved on by one. *)
Theorem create_products_succeeds request (d : gmap string value) st :
  headers_get "Content-Type" (headers request) = Some "application/json" →
  json request = Some (VDict d) → ¬ refused (Category := Category) (VDict d) →
  d !! "name" ≠ Some VNone → d !! "description" ≠ Some VNone →
  d !! "price" ≠ Some VNone →
  rows st !! next_id st = None →
  ∃ response product st',
    create_products request st = (inr response, st') ∧
    status response = 201 ∧ serialize product = inr (body response) ∧
    response_id response = Some (VInt (next_id st)) ∧
    id product = Some (next_id st) ∧
    d !! "name" = Some (name product) ∧
    d !! "description" = Some (description product) ∧
    d !! "price" = Some (price product) ∧
    d !! "available" = Some (available product) ∧
    rows st' = <[next_id st := product]> (rows st) ∧
    next_id st' = next_id st + 1 ∧
    size (rows st') = S (size (rows st)).
Proof.
  intros Hct Hjson Hacc Hname Hdesc Hprice Hfree.
  destruct (deserialize_cases Product_new (VDict d))
    as [[Href _] | [_ (d' & p & [= <-] & Hdes & Hpop)]]; [by destruct Hacc|].
  destruct Hpop as (Hid & Hn & Hds & Hpr & Ha & c & Hc & Hcn).
  assert (columns_set p = true) as Hcols.
  { unfold columns_set. rewrite Hc.
    destruct (name p); [by destruct Hname| | | | | |];
    (destruct (description p); [by destruct Hdesc| | | | | |]);
    (destruct (price p); [by destruct Hprice| | | | | |]);
    (destruct (available p) eqn:Hav; simpl; try done);
    exfalso; apply Hacc; right; right; left;
    exists d; eexists; (split; [done|]); (split; [exact Ha|]); by intros []. }
  rewrite create_products_unfold, bool_decide_eq_true_2, Hjson, Hdes by done.
  rewrite (create_new p st) by done. rewrite Hcols, Hfree. simpl.
  rewrite (serialize_valid (set_id (Some (next_id st)) p) c) by done.
  eexists _, (set_id (Some (next_id st)) p), _. split; [reflexivity|]. simpl.
  split; [done|].
  split; [by rewrite (serialize_valid (set_id (Some (next_id st)) p) c)|].
  split; [unfold response_id; simpl; by simplify_map_eq|].
  repeat (split; [done|]). by apply map_size_insert_None.
Qed.

Lemma create_products_failure_rows request (e : Error) st st' :
  create_products request st = (inl e, st') →
  rows st' = rows st ∧ (next_id st ≤ next_id st')%Z ∧
  ∀ msg, e ≠ AttributeError msg.
Proof.
  rewrite create_products_unfold. intros Hpost.
  case_bool_decide as Hct;
    [|injection Hpost as <- <-; by repeat split; [lia|]].
  destruct (json request) as [data|];
    [|injection Hpost as <- <-; by repeat split; [lia|]].
  destruct (deserialize Product_new data) as [e0|p] eqn:Hdes.
  { injection Hpost as <- <-. split; [done|]. split; [lia|].
    intros msg ->.
    destruct (deserialize_error_kind Product_new data _ Hdes)
      as [msg' Hmsg]. discriminate Hmsg. }
  destruct (deserialize_keeps_id _ _ _ Hdes) as [Hid _].
  rewrite (create_new p st Hid) in Hpost.
  destruct (columns_set p) eqn:Hcols; simpl in Hpost;
    [|injection Hpost as <- <-; by repeat split; [lia|]].
  destruct (rows st !! next_id st) eqn:Hfree.
  { injection Hpost as <- <-. simpl. by repeat split; [lia|]. }
  destruct (serialize_is_Some (set_id (Some (next_id st)) p)) as [m Hm];
    [by apply columns_set_category|].
  rewrite Hm in Hpost. discriminate Hpost.
Qed.

(** X6. A [POST /products] that raises has not touched the table, and it
    never raises an [AttributeError]: what it raises is the 415 or 400
    abort, a data-validation error, or a store error. *)
Theorem create_products_failure_keeps_rows request (e : Error) st st' :
  create_products request st = (inl e, st') →
  rows st' = rows st ∧ (next_id st ≤ next_id st')%Z ∧
  ∀ msg, e ≠ AttributeError msg.
Proof. apply create_products_failure_rows. Qed.


(** ** Updating through the route, step by step *)

Lemma alter_const (m : gmap Z (Product Category)) (i : Z) row product :
  m !! i = Some row → alter (λ _, product) i m = <[i := product]> m.
Proof.
  intros Hrow. apply map_eq. intros j.
  destruct (decide (i = j)) as [<- | Hne].
  - by rewrite lookup_alter_eq, lookup_insert_eq, Hrow.
  - by rewrite lookup_alter_ne, lookup_insert_ne.
Qed.

Lemma update_products_unfold (product_id : Z) request st :
  update_products product_id request st =
    if bool_decide (headers_get "Content-Type" (headers request)
                    = Some "application/json")
    then
      match rows st !! product_id with
      | None =>
          (inl (HTTPException HTTP_404_NOT_FOUND
                  (not_found_message product_id)), st)
      | Some row =>
          match json request with
          | None =>
              (inl (HTTPException HTTP_400_BAD_REQUEST
                      "Failed to decode JSON object"), st)
          | Some data =>
              match deserialize (load product_id row) data with
              | inl e => (inl e, st)
              | inr p =>
                  let product := set_id (Some product_id) p in
                  let st1 :=
                    mkStore (<[product_id := product]> (rows st))
                            (next_id st) in
                  match serialize product with
                  | inl e => (inl e, st1)
                  | inr message =>
                      (inr (mkResponse message HTTP_200_OK []), st1)
                  end
              end
          end
      end
    else
      (inl (HTTPException HTTP_415_UNSUPPORTED_MEDIA_TYPE
              "Content-Type must be application/json"), st).
Proof.
  unfold update_products, bind. rewrite check_content_type_spec.
  case_bool_decide; [|done]. unfold find. simpl.
  destruct (rows st !! product_id) as [row|] eqn:Hrow; simpl; [|done].
  unfold get_json. destruct (json request) as [data|]; [|done].
  unfold ret, lift.
  destruct (deserialize (load product_id row) data) as [e|p]; [done|].
  unfold update. simpl. rewrite (alter_const _ _ row) by done.
  by destruct (serialize (set_id (Some product_id) p)).
Qed.

(** X8. Both writing handlers answer 415 exactly when the Content-Type
    header is not the string ["application/json"]: with that header a
    [POST] or [PUT] may still fail, but never with 415. *)
Theorem unsupported_media_type_iff (product_id : Z) request st :
  (status_seen (create_products request st).1 = 415 ↔
   headers_get "Content-Type" (headers request) ≠ Some "application/json") ∧
  (status_seen (update_products product_id request st).1 = 415 ↔
   headers_get "Content-Type" (headers request) ≠ Some "application/json").
Proof.
  rewrite create_products_unfold, update_products_unfold.
  case_bool_decide as Hct; cycle 1.
  { by split. }
  split; (split; [|done]); intros Hstatus; exfalso.
  - destruct (json request) as [data|]; [|discriminate Hstatus].
    destruct (deserialize Product_new data) as [e|p] eqn:Hdes.
    { destruct (deserialize_error_kind _ _ _ Hdes) as [msg ->].
      discriminate Hstatus. }
    destruct (deserialize_keeps_id _ _ _ Hdes) as [Hid _].
    rewrite (create_new p st Hid) in Hstatus.
    destruct (columns_set p) eqn:Hcols; simpl in Hstatus;
      [|discriminate Hstatus].
    destruct (rows st !! next_id st); [discriminate Hstatus|].
    destruct (serialize_is_Some (set_id (Some (next_id st)) p)) as [m Hm];
      [by apply columns_set_category|].
    rewrite Hm in Hstatus. discriminate Hstatus.
  - destruct (rows st !! product_id) as [row|]; [|discriminate Hstatus].
    destruct (json request) as [data|]; [|discriminate Hstatus].
    destruct (deserialize (load product_id row) data) as [e|p] eqn:Hdes.
    { destruct (deserialize_error_kind _ _ _ Hdes) as [msg ->].
      discriminate Hstatus. }
    simpl in Hstatus.
    destruct (deserialize_keeps_id _ _ _ Hdes) as [_ Hcat].
    destruct (serialize_is_Some (set_id (Some product_id) p) Hcat) as [m Hm].
    rewrite Hm in Hstatus. discriminate Hstatus.
Qed.

(** X9. [PUT /products/{id}] with the JSON content type for an id the
    store does not hold aborts with 404 before the body is looked at: the
    answer is the same for a valid body, a refused one and one that does
    not parse, and the store is unchanged. *)
Theorem update_products_absent (product_id : Z) request st :
  headers_get "Content-Type" (headers request) = Some "application/json" →
  rows st !! product_id = None →
  update_products product_id request st =
    (inl (HTTPException 404 (not_found_message product_id)), st).
Proof.
  intros Hct Hrow.
  by rewrite update_products_unfold, bool_decide_eq_true_2, Hrow.
Qed.

(** What a successful [PUT /products/{id}] did. *)
Lemma update_products_inv (product_id : Z) request response st st' :
  update_products product_id request st = (inr response, st') →
  ∃ row data p,
    rows st !! product_id = Some row ∧ json request = Some data ∧
    deserialize (load product_id row) data = inr p ∧
    serialize (set_id (Some product_id) p) = inr (body response) ∧
    response = mkResponse (body response) HTTP_200_OK [] ∧
    st' = mkStore (<[product_id := set_id (Some product_id) p]> (rows st))
                  (next_id st).
Proof.
  rewrite update_products_unfold. intros Hput.
  case_bool_decide; [|discriminate Hput].
  destruct (rows st !! product_id) as [row|]; [|discriminate Hput].
  destruct (json request) as [data|]; [|discriminate Hput].
  destruct (deserialize (load product_id row) data) as [e|p] eqn:Hdes;
    [discriminate Hput|].
  simpl in Hput.
  destruct (serialize (set_id (Some product_id) p)) as [e|message] eqn:Hser;
    [discriminate Hput|].
  injection Hput as <- <-. by exists row, data, p.
Qed.


Lemma update_products_failure_store (product_id : Z) request
    (e : Error) st st' :
  update_products product_id request st = (inl e, st') →
  st' = st ∧
  ((∃ code msg, e = HTTPException code msg ∧ code ∈ [415; 404; 400]) ∨
   ∃ msg, e = DataValidationError msg).
Proof.
  rewrite update_products_unfold. intros Hput.
  case_bool_decide.
  2:{ injection Hput as <- <-. split; [done|]. left. eexists _, _.
      split; [done|]. set_solver. }
  destruct (rows st !! product_id) as [row|].
  2:{ injection Hput as <- <-. split; [done|]. left. eexists _, _.
      split; [done|]. set_solver. }
  destruct (json request) as [data|].
  2:{ injection Hput as <- <-. split; [done|]. left. eexists _, _.
      split; [done|]. set_solver. }
  destruct (deserialize (load product_id row) data) as [e0|p] eqn:Hdes.
  { injection Hput as <- <-. split; [done|]. right.
    by apply (deserialize_error_kind _ _ _ Hdes). }
  simpl in Hput.
  destruct (deserialize_keeps_id _ _ _ Hdes) as [_ Hcat].
  destruct (serialize_is_Some (set_id (Some product_id) p) Hcat) as [m Hm].
  rewrite Hm in Hput. discriminate Hput.
Qed.


(** X12. [PUT /products/{id}] is idempotent: a request that succeeded,
    sent again, gets the same answer and leaves the store as the first
    one left it. *)
Theorem update_products_idempotent (product_id : Z) request response st st' :
  update_products product_id request st = (inr response, st') →
  update_products product_id request st' = (inr response, st').
Proof.
  intros Hput.
  pose proof Hput as Hfirst. rewrite update_products_unfold in Hfirst.
  case_bool_decide as Hct; [|discriminate Hfirst]. clear Hfirst.
  destruct (update_products_inv _ _ _ _ _ Hput)
    as (row & data & p & Hrow & Hjson & Hdes & Hser & Hresp & ->).
  rewrite update_products_unfold, bool_decide_eq_true_2 by done. simpl.
  rewrite lookup_insert_eq, Hjson.
  assert (deserialize (load product_id (set_id (Some product_id) p)) data
          = inr p) as ->.
  { destruct (deserialize_cases (load product_id row) data)
      as [[_ [msg Hmsg]] | [_ (d & p0 & -> & Hok & _)]].
    - rewrite Hmsg in Hdes. discriminate Hdes.
    - rewrite <-Hdes. reflexivity. }
  simpl. rewrite Hser, insert_insert_eq. by rewrite Hresp.
Qed.

(** X13. After a successful [PUT /products/{id}], a [GET] of that id
    answers with the very response the [PUT] gave. *)
Theorem get_products_after_update (product_id : Z) (segment : string)
    request response st st' :
  read_key segment = Some product_id →
  update_products product_id request st = (inr response, st') →
  get_products read_key segment st' = (inr response, st').
Proof.
  intros Hkey Hput.
  destruct (update_products_inv _ _ _ _ _ Hput)
    as (row & data & p & Hrow & Hjson & Hdes & Hser & Hresp & ->).
  rewrite (get_products_row _ product_id) by done. simpl.
  rewrite lookup_insert_eq.
  change (load product_id (set_id (Some product_id) p))
    with (set_id (Some product_id) p).
  by rewrite Hser, Hresp.
Qed.

(** ** Requests in a row *)

Lemma create_products_id request response st st' :
  create_products request st = (inr response, st') →
  response_id response = Some (VInt (next_id st)).
Proof.
  intros Hpost.
  destruct (create_products_inv _ _ _ _ Hpost)
    as (data & p & message & _ & _ & _ & Hcols & _ & Hser & -> & _).
  destruct (columns_set_category p Hcols) as [c Hc].
  rewrite (serialize_valid (set_id (Some (next_id st)) p) c) in Hser by done.
  injection Hser as <-. unfold response_id. simpl. by simplify_map_eq.
Qed.

(** X14. After a successful [POST /products], a [GET] of the id the
    answer carries returns 200 with the same body. *)
Theorem get_products_after_create (segment : string) (key : Z)
    request response st st' :
  create_products request st = (inr response, st') →
  response_id response = Some (VInt key) → read_key segment = Some key →
  get_products read_key segment st' =
    (inr (mkResponse (body response) 200 []), st').
Proof.
  intros Hpost Hid Hkey.
  rewrite (create_products_id _ _ _ _ Hpost) in Hid. injection Hid as <-.
  destruct (create_products_inv _ _ _ _ Hpost)
    as (data & p & message & _ & _ & _ & _ & _ & Hser & -> & ->).
  rewrite (get_products_row _ (next_id st)) by done. simpl.
  rewrite lookup_insert_eq.
  change (load (next_id st) (set_id (Some (next_id st)) p))
    with (set_id (Some (next_id st)) p).
  by rewrite Hser.
Qed.

(** X15. A [POST /products] followed by a [DELETE] of the id it returned
    leaves the table as it was before the two; only the sequence has
    moved on. *)
Theorem delete_products_after_create (key : Z) request response st st' :
  create_products request st = (inr response, st') →
  response_id response = Some (VInt key) →
  delete_products key st' =
    (inr (mkResponse (VStr "") 204 []),
     mkStore (rows st) (next_id st + 1)).
Proof.
  intros Hpost Hid.
  rewrite (create_products_id _ _ _ _ Hpost) in Hid. injection Hid as <-.
  destruct (create_products_inv _ _ _ _ Hpost)
    as (data & p & message & _ & _ & _ & _ & Hfree & _ & _ & ->).
  rewrite delete_products_store. simpl. by rewrite delete_insert_id.
Qed.

(** X16. Ids are not handed out twice: of two successful [POST]s with a
    [DELETE] of any id in between, the second gets a strictly greater id
    than the first. *)
Theorem create_products_ids_increase (key : Z) request1 request2
    response1 response2 st st1 st3 :
  create_products request1 st = (inr response1, st1) →
  create_products request2 (delete_products key st1).2 = (inr response2, st3) →
  ∃ id1 id2,
    response_id response1 = Some (VInt id1) ∧
    response_id response2 = Some (VInt id2) ∧ id1 < id2.
Proof.
  intros Hfirst Hsecond.
  exists (next_id st), (next_id (delete_products key st1).2).
  split; [by apply (create_products_id _ _ _ _ Hfirst)|].
  split; [by apply (create_products_id _ _ _ _ Hsecond)|].
  destruct (create_products_inv _ _ _ _ Hfirst)
    as (data & p & message & _ & _ & _ & _ & _ & _ & _ & ->).
  rewrite delete_products_store. simpl. lia.
Qed.

(** ** The shape of the store *)

Lemma store_ok_rows st st' :
  store_ok st → rows st' = rows st → (next_id st ≤ next_id st')%Z →
  store_ok st'.
Proof.
  intros Hok Hrows Hnext i row Hrow. rewrite Hrows in Hrow.
  destruct (Hok i row Hrow) as [Hlt Hcat]. split; [lia | done].
Qed.

Lemma store_ok_create_products request st :
  store_ok st → store_ok (create_products request st).2.
Proof.
  intros Hok.
  destruct (create_products request st) as [[e|response] st'] eqn:Hpost.
  - destruct (create_products_failure_rows request e st st' Hpost)
      as (Hrows & Hnext & _). by apply (store_ok_rows st).
  - destruct (create_products_inv _ _ _ _ Hpost)
      as (data & p & message & _ & _ & _ & Hcols & _ & _ & _ & ->).
    intros i row. simpl. intros Hrow.
    apply lookup_insert_Some in Hrow as [[<- <-] | [_ Hrow]].
    + split; [lia|]. by apply columns_set_category.
    + destruct (Hok i row Hrow) as [Hlt Hcat]. split; [lia | done].
Qed.

Lemma store_ok_update_products (product_id : Z) request st :
  store_ok st → store_ok (update_products product_id request st).2.
Proof.
  intros Hok.
  destruct (update_products product_id request st)
    as [[e|response] st'] eqn:Hput.
  - destruct (update_products_failure_store product_id request e st st' Hput).
    by subst.
  - destruct (update_products_inv _ _ _ _ _ Hput)
      as (row0 & data & p & Hrow0 & _ & Hdes & _ & _ & ->).
    intros i row. simpl. intros Hrow.
    apply lookup_insert_Some in Hrow as [[<- <-] | [_ Hrow]].
    + split; [by destruct (Hok product_id row0 Hrow0)|].
      by destruct (deserialize_keeps_id _ _ _ Hdes).
    + by apply Hok.
Qed.

Lemma store_ok_delete_products (product_id : Z) st :
  store_ok st → store_ok (delete_products product_id st).2.
Proof.
  intros Hok. rewrite delete_products_store. intros i row. simpl.
  intros Hrow. apply lookup_delete_Some in Hrow as [_ Hrow]. by apply Hok.
Qed.

(** X17. The three writing handlers keep the store in shape, whether they
    answer or raise: every key stays below the next value of the
    sequence, so the next key is always free, and every row keeps a
    category, so it can be serialized. *)
Theorem handlers_keep_store_ok (product_id : Z) request st :
  store_ok st →
  rows st !! next_id st = None ∧
  store_ok (create_products request st).2 ∧
  store_ok (update_products product_id request st).2 ∧
  store_ok (delete_products product_id st).2.
Proof.
  intros Hok. split.
  - destruct (rows st !! next_id st) as [row|] eqn:Hrow; [|done].
    destruct (Hok _ _ Hrow) as [Hlt _]. lia.
  - split; [by apply store_ok_create_products|].
    split; [by apply store_ok_update_products
           | by apply store_ok_delete_products].
Qed.

(** ** Listing, case by case *)

Lemma truthy_cases (o : option string) :
  (∃ s, o = Some s ∧ s ≠ "") ∨ truthy o = false.
Proof.
  destruct o as [s|]; [|by right]. simpl.
  destruct (String.eqb_spec s ""); [by right | left; by exists s].
Qed.

Lemma listing_eq (products : list (Product Category)) st :
  listing products st =
    match result_mapM serialize products with
    | inl e => (inl e, st)
    | inr items => (inr (mkResponse (VList items) HTTP_200_OK []), st)
    end.
Proof.
  unfold listing, bind, lift, ret.
  by destruct (result_mapM serialize products).
Qed.

Lemma list_products_selection request st :
  ∃ outcome,
    selection_of boolean_like request st outcome ∧
    list_products boolean_like request st =
      match outcome with
      | inl e => (inl e, st)
      | inr products => listing products st
      end.
Proof.
  rewrite list_products_unfold. unfold selection_of.
  destruct (truthy_cases (args_get "name" (args request)))
    as [(n & Hn & Hne) | Hname].
  { eexists (inr _). split; [left; by exists n|].
    by rewrite (if_truthy_true _ n). }
  rewrite (if_truthy_false _ _ _ Hname).
  destruct (truthy_cases (args_get "category" (args request)))
    as [(c & Hc & Hne) | Hcat].
  { rewrite (if_truthy_true _ c) by done.
    unfold bind at 1, getattr_Category.
    destruct (getattr_enum (upper c)) as [cv|] eqn:Hmap.
    - eexists (inr _). split; [|reflexivity].
      right; left. split; [done|]. exists c. by rewrite Hmap.
    - eexists (inl _). split; [|reflexivity].
      right; left. split; [done|]. exists c. by rewrite Hmap. }
  rewrite (if_truthy_false _ _ _ Hcat).
  destruct (truthy_cases (args_get "available" (args request)))
    as [(a & Ha & Hne) | Hav].
  { rewrite (if_truthy_true _ a) by done.
    unfold bind at 1, find_by_availability.
    destruct (boolean_like a) as [b|] eqn:Hread.
    - eexists (inr _). split; [|reflexivity].
      right; right; left. repeat (split; [done|]). exists a. by rewrite Hread.
    - eexists (inl _). split; [|reflexivity].
      right; right; left. repeat (split; [done|]). exists a. rewrite Hread.
      repeat (split; [done|]). by eexists. }
  rewrite (if_truthy_false _ _ _ Hav).
  eexists (inr _). split; [|reflexivity]. by repeat right.
Qed.

Lemma table_length st : length (table st) = size (rows st).
Proof. unfold table. by rewrite length_fmap, length_map_to_list. Qed.

Lemma table_categories st :
  store_ok st → Forall (λ p, is_Some (category p)) (table st).
Proof.
  intros Hok. unfold table. apply Forall_fmap, Forall_forall.
  intros [i row] Hin. apply elem_of_map_to_list in Hin. simpl.
  by destruct (Hok i row Hin).
Qed.

Lemma filter_categories (f : Product Category → bool)
    (l : list (Product Category)) :
  Forall (λ p, is_Some (category p)) l →
  Forall (λ p, is_Some (category p)) (List.filter f l).
Proof.
  induction 1 as [|p l Hp Hl IH]; simpl; [constructor|].
  destruct (f p); [by constructor | done].
Qed.

Lemma serialize_all (l : list (Product Category)) :
  Forall (λ p, is_Some (category p)) l →
  ∃ items, result_mapM serialize l = inr items ∧ length items = length l.
Proof.
  induction 1 as [|p l Hp Hl (items & IH & Hlen)]; simpl; [by exists []|].
  destruct (serialize_is_Some p Hp) as [message ->]. simpl. rewrite IH. simpl.
  exists (message :: items). split; [done|]. simpl. by rewrite Hlen.
Qed.


(** X18. With a non-empty [name] in the query, [GET /products] answers
    as if [name] were the only parameter: [category] and [available] are
    not looked at, so not even an unknown category makes it fail. *)
Theorem list_products_name_first request (n : string) st :
  args_get "name" (args request) = Some n → n ≠ "" →
  list_products boolean_like request st =
    list_products boolean_like (get_products_with [("name", n)]) st.
Proof.
  intros Hn Hne. rewrite !list_products_unfold.
  rewrite (if_truthy_true _ n) by done.
  by rewrite (if_truthy_true (args_get "name" _) n).
Qed.

Lemma upper_empty (s : string) : upper s = "" → s = "".
Proof. by destruct s. Qed.

(** X19. The category filter does not depend on the case of its value:
    two requests that apply it (no name given) with values that agree
    once upper-cased, and with the same [available], get the same
    answer. *)
Theorem list_products_category_case request1 request2 (c1 c2 : string) st :
  truthy (args_get "name" (args request1)) = false →
  truthy (args_get "name" (args request2)) = false →
  args_get "category" (args request1) = Some c1 →
  args_get "category" (args request2) = Some c2 →
  upper c1 = upper c2 →
  args_get "available" (args request1) = args_get "available" (args request2) →
  list_products boolean_like request1 st =
    list_products boolean_like request2 st.
Proof.
  intros Hn1 Hn2 Hc1 Hc2 Hupper Hav. rewrite !list_products_unfold.
  rewrite !(if_truthy_false (args_get "name" _)) by done.
  rewrite Hc1, Hc2, Hav. simpl.
  destruct (String.eqb_spec c1 "") as [-> | Hne1].
  - symmetry in Hupper. apply upper_empty in Hupper as ->. done.
  - destruct (String.eqb_spec c2 "") as [-> | Hne2].
    + apply upper_empty in Hupper. by destruct Hne1.
    + by rewrite Hupper.
Qed.

(** X20. On a store in shape, [GET /products] has three outcomes: 200
    with a list of at most as many entries as the table has rows; the
    [AttributeError] of a category filter that maps to no member; the
    store error of an availability filter the store cannot read.  The
    store is unchanged in each. *)
Theorem list_products_outcomes request st :
  store_ok st →
  (∃ items,
     list_products boolean_like request st =
       (inr (mkResponse (VList items) 200 []), st) ∧
     (length items ≤ size (rows st))%nat) ∨
  (truthy (args_get "name" (args request)) = false ∧
   ∃ c, args_get "category" (args request) = Some c ∧ c ≠ "" ∧
        getattr_enum (upper c) = (None : option Category) ∧
        list_products boolean_like request st =
          (inl (AttributeError (upper c)), st)) ∨
  (truthy (args_get "name" (args request)) = false ∧
   truthy (args_get "category" (args request)) = false ∧
   ∃ a msg, args_get "available" (args request) = Some a ∧ a ≠ "" ∧
            boolean_like a = None ∧
            list_products boolean_like request st = (inl (StoreError msg), st)).
Proof.
  intros Hok. pose proof (table_categories st Hok) as Hcats.
  assert (∀ f, ∃ items,
            listing (List.filter f (table st)) st =
              (inr (mkResponse (VList items) 200 []), st) ∧
            (length items ≤ size (rows st))%nat) as Hfiltered.
  { intros f.
    destruct (serialize_all _ (filter_categories f _ Hcats))
      as (items & Hitems & Hlen).
    exists items. rewrite listing_eq, Hitems. split; [done|].
    rewrite Hlen, <-table_length. apply filter_length_le. }
  destruct (list_products_selection request st) as (outcome & Hsel & ->).
  destruct Hsel as [(n & Hn & Hne & ->) | [(Hname & c & Hc & Hne & Hmap)
    | [(Hname & Hcat & a & Ha & Hne & Hread) | (_ & _ & _ & ->)]]].
  - left. apply Hfiltered.
  - destruct (getattr_enum (upper c)) as [cv|] eqn:Hcv; subst outcome.
    + left. apply Hfiltered.
    + right; left. split; [done|]. by exists c.
  - destruct (boolean_like a) as [b|] eqn:Hb.
    + subst outcome. left. apply Hfiltered.
    + destruct Hread as [msg ->]. right; right.
      repeat (split; [done|]). by exists a, msg.
  - left. destruct (serialize_all _ Hcats) as (items & Hitems & Hlen).
    exists items. rewrite listing_eq, Hitems. split; [done|].
    by rewrite Hlen, table_length.
Qed.

(** X21. On a store in shape, [GET /products] without a filter (none
    given, or given empty) answers 200 with exactly one entry per row. *)
Theorem list_products_all_rows request st :
  store_ok st →
  truthy (args_get "name" (args request)) = false →
  truthy (args_get "category" (args request)) = false →
  truthy (args_get "available" (args request)) = false →
  ∃ items,
    list_products boolean_like request st =
      (inr (mkResponse (VList items) 200 []), st) ∧
    length items = size (rows st).
Proof.
  intros Hok Hname Hcat Hav. rewrite list_products_unfold.
  rewrite !if_truthy_false by done.
  destruct (serialize_all _ (table_categories st Hok))
    as (items & Hitems & Hlen).
  exists items. unfold bind at 1, all. rewrite listing_eq, Hitems.
  split; [done|]. by rewrite Hlen, table_length.
Qed.


End Handlers.

(** * The handlers at work on the catalogue *)

Lemma hat_store_ok : store_ok hat_store.
Proof.
  intros i row. unfold hat_store. simpl. intros Hrow.
  apply lookup_insert_Some in Hrow as [[<- <-] | [_ Hrow]].
  - split; [lia | by eexists].
  - by rewrite lookup_empty in Hrow.
Qed.

Lemma fedora_json_accepted :
  ¬ refused (Category := CatalogCategory) fedora_json.
Proof.
  apply (accepted_not_refused _ (VStr "Fedora") (VStr "A red hat")
           (VDec (mkDecimal 1250 (-2))) true CLOTHS); reflexivity.
Qed.


(** No product 999999. *)
Lemma get_products_absent_hat :
  decimal_key "999999" = Some 999999 ∧
  rows hat_store !! 999999 = None ∧
  get_products decimal_key "999999" hat_store =
    (inl (HTTPException 404 "Product with ID - '999999' not found"),
     hat_store).
Proof.
  split; [reflexivity|]. split; [reflexivity|].
  apply (get_products_absent decimal_key "999999" 999999 hat_store);
    reflexivity.
Defined.

(** Product 1 is the red hat. *)
Lemma get_products_present_hat :
  decimal_key "1" = Some 1 ∧
  ∃ response,
    get_products decimal_key "1" hat_store = (inr response, hat_store) ∧
    status response = 200 ∧ response_id response = Some (VInt 1).
Proof.
  split; [reflexivity|].
  destruct (get_products_present decimal_key "1" 1 (set_id (Some 1) fedora)
              hat_store) as (response & Hget & Hstatus & _ & _ & Hid);
    [reflexivity | reflexivity | by eexists |].
  by exists response.
Defined.

(** The red hat, deleted, is gone. *)
Lemma get_products_after_delete_hat :
  decimal_key "1" = Some 1 ∧
  get_products decimal_key "1" (delete_products 1 hat_store).2 =
    (inl (HTTPException 404 "Product with ID - '1' not found"),
     (delete_products 1 hat_store).2).
Proof.
  split; [reflexivity|].
  apply (get_products_after_delete decimal_key "1" 1 hat_store). reflexivity.
Defined.

(** The example request creates product 1 in the empty store. *)
Lemma create_products_succeeds_fedora :
  headers_get "Content-Type" (headers post_fedora) = Some "application/json" ∧
  rows empty_store !! next_id empty_store = None ∧
  ∃ response st',
    create_products post_fedora empty_store = (inr response, st') ∧
    status response = 201 ∧ response_id response = Some (VInt 1) ∧
    size (rows st') = 1%nat.
Proof.
  split; [reflexivity|]. split; [reflexivity|].
  destruct (create_products_succeeds post_fedora _ empty_store
              eq_refl eq_refl fedora_json_accepted)
    as (response & product & st' & Hpost & Hstatus & _ & Hid & _ & _ & _ & _
        & _ & _ & _ & Hsize);
    [discriminate | discriminate | discriminate | reflexivity |].
  by exists response, st'.
Defined.

(** A store whose sequence points at a taken key refuses the hat, and
    keeps its rows. *)
Lemma create_products_duplicate_key :
  ∃ e st',
    create_products post_fedora (mkStore (rows hat_store) 1) = (inl e, st') ∧
    rows st' = rows hat_store ∧ (1 ≤ next_id st')%Z ∧
    ∀ msg, e ≠ AttributeError msg.
Proof.
  destruct (create_products post_fedora (mkStore (rows hat_store) 1))
    as [[e|response] st'] eqn:Hpost; [|by vm_compute in Hpost].
  exists e, st'. split; [done|].
  apply (create_products_failure_keeps_rows post_fedora e
           (mkStore (rows hat_store) 1) st' Hpost).
Defined.


(** No product 7 to update. *)
Lemma update_products_absent_hat :
  headers_get "Content-Type" (headers put_bowler) = Some "application/json" ∧
  rows hat_store !! 7 = None ∧
  update_products 7 put_bowler hat_store =
    (inl (HTTPException 404 "Product with ID - '7' not found"), hat_store).
Proof.
  split; [reflexivity|]. split; [reflexivity|].
  apply (update_products_absent 7 put_bowler hat_store); reflexivity.
Defined.



(** The same update twice. *)
Lemma update_products_twice_hat :
  ∃ response st',
    update_products 1 put_bowler hat_store = (inr response, st') ∧
    update_products 1 put_bowler st' = (inr response, st').
Proof.
  destruct (update_products 1 put_bowler hat_store)
    as [[e|response] st'] eqn:Hput; [by vm_compute in Hput|].
  exists response, st'. split; [done|].
  by apply (update_products_idempotent 1 put_bowler response hat_store st').
Defined.

(** Reading the bowler back. *)
Lemma get_products_after_update_hat :
  decimal_key "1" = Some 1 ∧
  ∃ response st',
    update_products 1 put_bowler hat_store = (inr response, st') ∧
    get_products decimal_key "1" st' = (inr response, st').
Proof.
  split; [reflexivity|].
  destruct (update_products 1 put_bowler hat_store)
    as [[e|response] st'] eqn:Hput; [by vm_compute in Hput|].
  exists response, st'. split; [done|].
  by apply (get_products_after_update decimal_key 1 "1" put_bowler response
              hat_store st').
Defined.

(** Reading the hat back after creating it. *)
Lemma get_products_after_create_fedora :
  decimal_key "1" = Some 1 ∧
  ∃ response st',
    create_products post_fedora empty_store = (inr response, st') ∧
    response_id response = Some (VInt 1) ∧
    get_products decimal_key "1" st' =
      (inr (mkResponse (body response) 200 []), st').
Proof.
  split; [reflexivity|].
  destruct (create_products post_fedora empty_store)
    as [[e|response] st'] eqn:Hpost; [by vm_compute in Hpost|].
  assert (response_id response = Some (VInt 1)) as Hid.
  { vm_compute in Hpost. by injection Hpost as <- <-. }
  exists response, st'. split; [done|]. split; [done|].
  by apply (get_products_after_create decimal_key "1" 1 post_fedora response
              empty_store st').
Defined.

(** Creating the hat and deleting it again. *)
Lemma delete_products_after_create_fedora :
  ∃ response st',
    create_products post_fedora empty_store = (inr response, st') ∧
    response_id response = Some (VInt 1) ∧
    delete_products 1 st' =
      (inr (mkResponse (VStr "") 204 []), mkStore (rows empty_store) 2).
Proof.
  destruct (create_products post_fedora empty_store)
    as [[e|response] st'] eqn:Hpost; [by vm_compute in Hpost|].
  assert (response_id response = Some (VInt 1)) as Hid.
  { vm_compute in Hpost. by injection Hpost as <- <-. }
  exists response, st'. split; [done|]. split; [done|].
  by apply (delete_products_after_create 1 post_fedora response empty_store
              st').
Defined.

(** The hat created, deleted and created again gets a new id. *)
Lemma create_products_ids_increase_fedora :
  ∃ response1 response2 st1 st3 id1 id2,
    create_products post_fedora empty_store = (inr response1, st1) ∧
    create_products post_fedora (delete_products 1 st1).2
      = (inr response2, st3) ∧
    response_id response1 = Some (VInt id1) ∧
    response_id response2 = Some (VInt id2) ∧ id1 < id2.
Proof.
  destruct (create_products post_fedora empty_store)
    as [[e|response1] st1] eqn:Hfirst; [by vm_compute in Hfirst|].
  destruct (create_products post_fedora (delete_products 1 st1).2)
    as [[e|response2] st3] eqn:Hsecond.
  { vm_compute in Hfirst. injection Hfirst as <- <-.
    by vm_compute in Hsecond. }
  destruct (create_products_ids_increase 1 post_fedora post_fedora response1
              response2 empty_store st1 st3 Hfirst Hsecond)
    as (id1 & id2 & Hid1 & Hid2 & Hlt).
  by exists response1, response2, st1, st3, id1, id2.
Defined.

(** The store with the hat is in shape, and stays so. *)
Lemma handlers_keep_store_ok_hat :
  store_ok hat_store ∧
  rows hat_store !! next_id hat_store = None ∧
  store_ok (create_products put_bowler hat_store).2 ∧
  store_ok (update_products 1 put_bowler hat_store).2 ∧
  store_ok (delete_products 1 hat_store).2.
Proof.
  split; [exact hat_store_ok|].
  apply (handlers_keep_store_ok 1 put_bowler hat_store). exact hat_store_ok.
Defined.

(** A name and a category that is no member: the name decides. *)
Lemma list_products_name_first_hat :
  let request :=
    get_products_with [("name", "Fedora"); ("category", "bogus")] in
  args_get "name" (args request) = Some "Fedora" ∧
  list_products true_or_false request hat_store =
    list_products true_or_false (get_products_with [("name", "Fedora")])
      hat_store.
Proof.
  intros request. split; [reflexivity|].
  apply (list_products_name_first true_or_false request "Fedora" hat_store);
    [reflexivity | discriminate].
Defined.

(** [cloths] and [ClOtHs] are the same category. *)
Lemma list_products_category_case_hat :
  upper "cloths" = upper "ClOtHs" ∧
  list_products true_or_false (get_products_with [("category", "cloths")])
    hat_store =
  list_products true_or_false (get_products_with [("category", "ClOtHs")])
    hat_store.
Proof.
  split; [reflexivity|].
  apply (list_products_category_case true_or_false
           (get_products_with [("category", "cloths")])
           (get_products_with [("category", "ClOtHs")])
           "cloths" "ClOtHs" hat_store); reflexivity.
Defined.

(** An availability the store cannot read. *)
Lemma list_products_outcomes_hat :
  let request := get_products_with [("available", "maybe")] in
  store_ok hat_store ∧
  ∃ msg,
    list_products true_or_false request hat_store
      = (inl (StoreError msg), hat_store).
Proof.
  intros request. split; [exact hat_store_ok|].
  destruct (list_products_outcomes true_or_false request hat_store
              hat_store_ok)
    as [(items & Hget & _) | [(_ & c & Hc & _)
        | (_ & _ & a & msg & _ & _ & _ & Hget)]].
  - by vm_compute in Hget.
  - discriminate Hc.
  - by exists msg.
Defined.

(** One row, one entry. *)
Lemma list_products_all_rows_hat :
  let request := get_products_with [("name", "")] in
  store_ok hat_store ∧
  ∃ items,
    list_products true_or_false request hat_store
      = (inr (mkResponse (VList items) 200 []), hat_store) ∧
    length items = 1%nat.
Proof.
  intros request. split; [exact hat_store_ok|].
  apply (list_products_all_rows true_or_false request hat_store
           hat_store_ok); reflexivity.
Defined.


(** * The entity under the model tests *)

Section Entity.
Context {Category : Type} `{!Enumeration Category}.
Implicit Types (p q row product : Product Category) (st : Store Category).

Lemma store_ok_next_free st : store_ok st → rows st !! next_id st = None.
Proof.
  intros Hok. destruct (rows st !! next_id st) as [row|] eqn:Hrow; [|done].
  destruct (Hok _ _ Hrow) as [Hlt _]. lia.
Qed.

Lemma create_in_shape p st :
  store_ok st → columns_set p = true →
  let product := set_id (Some (next_id st)) p in
  let st' := mkStore (<[next_id st := product]> (rows st)) (next_id st + 1) in
  create (set_id None p) st = (inr product, st') ∧ store_ok st' ∧
  size (rows st') = S (size (rows st)).
Proof.
  intros Hok Hcols product st'.
  pose proof (store_ok_next_free st Hok) as Hfree.
  split; [|split].
  - rewrite create_new by done.
    change (columns_set (set_id None p)) with (columns_set p).
    by rewrite Hcols, Hfree.
  - intros i row. simpl. intros Hrow.
    apply lookup_insert_Some in Hrow as [[<- <-] | [_ Hrow]].
    + split; [lia|]. by apply columns_set_category.
    + destruct (Hok i row Hrow) as [Hlt Hcat]. split; [lia | done].
  - by apply map_size_insert_None.
Qed.

(** X23. The creation loop of the model tests: on a store in shape,
    creating one after the other any products whose required columns are
    set succeeds for each; the ids handed out are the next values of the
    sequence in order, so all distinct; and [all()] then has one product
    more per creation. *)
Theorem create_each_counts (products : list (Product Category)) st :
  store_ok st → Forall (λ p, columns_set p = true) products →
  ∃ created st',
    create_each products st = (inr created, st') ∧
    id <$> created
      = Some <$> seqZ (next_id st) (Z.of_nat (length products)) ∧
    NoDup (id <$> created) ∧
    (∃ before after,
       all st = (inr before, st) ∧ all st' = (inr after, st') ∧
       length after = (length before + length products)%nat) ∧
    store_ok st'.
Proof.
  intros Hok Hall. revert st Hok.
  induction Hall as [|p products Hp Hall IH]; intros st Hok.
  { exists [], st. split; [done|]. split; [done|]. split; [constructor|].
    split; [|done]. exists (table st), (table st).
    by rewrite Nat.add_0_r. }
  destruct (create_in_shape p st Hok Hp) as (Hcreate & Hok' & Hsize).
  destruct (IH _ Hok')
    as (created & st' & Heach & Hids & _ & (before & after & Hb & Ha & Hlen)
        & Hok'').
  exists (set_id (Some (next_id st)) p :: created), st'.
  assert (id <$> set_id (Some (next_id st)) p :: created
          = Some <$> seqZ (next_id st) (Z.of_nat (length (p :: products))))
    as Hids'.
  { rewrite seqZ_cons by (simpl length; lia). rewrite !fmap_cons, Hids.
    replace (Z.pred (Z.of_nat (length (p :: products))))
      with (Z.of_nat (length products)) by (simpl length; lia).
    reflexivity. }
  split.
  { simpl. unfold bind at 1. rewrite Hcreate.
    unfold bind at 1. by rewrite Heach. }
  split; [exact Hids'|]. split.
  { rewrite Hids'. apply (NoDup_fmap_2 Some), NoDup_seqZ. }
  split; [|done].
  exists (table st), after. split; [done|]. split; [done|].
  rewrite Hlen. unfold all in Hb. injection Hb as <-.
  rewrite !table_length. simpl.
  rewrite map_size_insert_None by by apply store_ok_next_free. simpl. lia.
Qed.


End Entity.

Lemma empty_store_ok : store_ok empty_store.
Proof. intros i row. unfold empty_store. simpl. by rewrite lookup_empty. Qed.

(** Two hats in a row get the ids 1 and 2. *)
Lemma create_each_two_hats :
  store_ok empty_store ∧
  ∃ created st',
    create_each [fedora; fedora] empty_store = (inr created, st') ∧
    id <$> created = [Some 1; Some 2] ∧ NoDup (id <$> created) ∧
    store_ok st'.
Proof.
  split; [exact empty_store_ok|].
  destruct (create_each_counts [fedora; fedora] empty_store empty_store_ok)
    as (created & st' & Heach & Hids & Hnodup & _ & Hok);
    [by repeat constructor|].
  by exists created, st'.
Defined.

